(** * RC beam design (ACI 318): a shallow embedding of [app.py]

    The calculation core of the Streamlit application: [max_moment],
    [flexural_design], [shear_design], the sampling done by
    [draw_diagrams], the artists placed by [draw_beam], and the two calls
    made by the "Calculate Design" button.

    Numbers.  The program computes with Python floats (the inputs come from
    [st.number_input] with float defaults).  They are modelled twice.

    - As real numbers, where every operation is the exact one: binary64
      rounding error, overflow and NaN are outside this layer.  What Python
      adds on top of the arithmetic is kept: [/] raises [ZeroDivisionError]
      on a zero divisor, [math.sqrt] raises [ValueError] on a negative
      argument, and [round(x, 2)] rounds half to even at the second decimal.
      NumPy's element-wise operations never raise.  The diagrams, which are
      NumPy arrays, live in this layer only.

    - As binary64 numbers, in the module [Binary64]: the design functions
      once more, on primitive floats, operation by operation.  There
      [L**2] raises [OverflowError], a divisor can underflow to zero, and
      [round(x, 2)] acts on the exact binary value.  The statements on what
      the design functions return or raise for every input are made in this
      layer. *)

From Stdlib Require Import Floats.
From Stdlib Require Import Reals Lra Lia.
From stdpp Require Import gmap strings list.

Set Warnings "-inexact-float".

Local Open Scope R_scope.

(** ** Python: exceptions and the fallible scalar operations *)

Inductive exn : Type :=
| ZeroDivisionError
| ValueError
| OverflowError.

(** A computation either raises or returns. *)
Definition Py (A : Type) : Type := exn + A.

Definition raise {A : Type} (e : exn) : Py A := inl e.

#[global] Instance Py_ret : MRet Py := fun A x => inr x.

#[global] Instance Py_bind : MBind Py := fun A B f m =>
  match m with
  | inl e => inl e
  | inr x => f x
  end.

(** [x / y] on Python numbers. *)
Definition truediv (x y : R) : Py R :=
  if Req_dec_T y 0 then raise ZeroDivisionError else mret (x / y).

(** [math.sqrt(x)]: "math domain error" below zero. *)
Definition math_sqrt (x : R) : Py R :=
  if Rlt_dec x 0 then raise ValueError else mret (sqrt x).

(** The integer nearest to [x], ties going to the even neighbour. *)
Definition round_half_even (x : R) : Z :=
  let n := Zfloor x in
  let r := x - IZR n in
  if Rlt_dec r (1 / 2) then n
  else if Rlt_dec (1 / 2) r then (n + 1)%Z
  else if Z.even n then n else (n + 1)%Z.

(** [round(x, ndigits)] for a float [x] and [ndigits >= 0]. *)
Definition round (x : R) (ndigits : nat) : R :=
  IZR (round_half_even (x * 10 ^ ndigits)) / 10 ^ ndigits.

(** ** NumPy: one-dimensional arrays and broadcasting against a scalar *)

Abbreviation ndarray := (list R).

(** [c * a], [c - a], [a * c], [a + c], [a / c], [a ** 2] and [a * b]. *)
Definition scalar_mul (c : R) (a : ndarray) : ndarray := (fun v => c * v) <$> a.
Definition scalar_sub (c : R) (a : ndarray) : ndarray := (fun v => c - v) <$> a.
Definition mul_scalar (a : ndarray) (c : R) : ndarray := (fun v => v * c) <$> a.
Definition add_scalar (a : ndarray) (c : R) : ndarray := (fun v => v + c) <$> a.
Definition div_scalar (a : ndarray) (c : R) : ndarray := (fun v => v / c) <$> a.
Definition square (a : ndarray) : ndarray := (fun v => v ^ 2) <$> a.
Definition multiply (a b : ndarray) : ndarray := zip_with Rmult a b.

(** [np.arange(0, num)] as floats. *)
Definition arange (num : nat) : ndarray := INR <$> seq 0 num.

(** [np.linspace(start, stop, num)] with the default [endpoint=True],
    following NumPy's implementation: the index array is scaled by the step
    (through [delta] when the step is zero), shifted by [start], and the last
    sample is overwritten with [stop]. *)
Definition linspace (start stop : R) (num : nat) : ndarray :=
  let div := (num - 1)%nat in
  let delta := stop - start in
  let y := arange num in
  let y :=
    if (0 <? div)%nat then
      let step := delta / INR div in
      if Req_dec_T step 0
      then mul_scalar (div_scalar y (INR div)) delta
      else mul_scalar y step
    else mul_scalar y delta in
  let y := add_scalar y start in
  if (1 <? num)%nat then <[(num - 1)%nat := stop]> y else y.

(** ** Matplotlib: what a figure records of the calls made on it *)

Record Axes : Type := mkAxes {
  ax_xdata : ndarray;
  ax_ydata : ndarray;
  ax_title : string;
  ax_xlabel : string;
  ax_ylabel : string;
  ax_grid : bool
}.

Record Figure : Type := mkFigure {
  fig_axes : list Axes
}.

(** ** ACI calculations *)

Definition max_moment (beam : string) (w L : R) : Py R :=
  simply ← truediv (w * L ^ 2) 8;
  fixed ← truediv (w * L ^ 2) 12;
  cantilever ← truediv (w * L ^ 2) 2;
  overhang ← truediv (w * L ^ 2) 10;
  mret (default 0
          (({[ "Simply Supported" := simply;
               "Fixed End" := fixed;
               "Cantilever" := cantilever;
               "Overhang" := overhang ]} : gmap string R) !! beam)).

Definition flexural_design (beam : string) (w L b d fc fy : R) : Py (R * R) :=
  Mu ← max_moment beam w L;
  let phi := 0.9 in
  As ← truediv (Mu * 1e6) (phi * fy * d * 0.9);
  mret (round Mu 2, round As 2).

Definition shear_design (w L b d fc : R) : Py (R * R * string) :=
  Vu ← truediv (w * L) 2;
  let phi := 0.75 in
  root ← math_sqrt fc;
  Vc ← truediv (0.17 * root * b * d) 1000;
  let status :=
    if Rge_dec (phi * Vc) Vu then "SAFE" else "STIRRUPS REQUIRED" in
  mret (round Vu 2, round (phi * Vc) 2, status).

(** ** SFD and BMD *)

Definition draw_diagrams (beam : string) (w L : R) : Py Figure :=
  let x := linspace 0 L 100 in
  '(V, M) ←
    (if decide (beam = "Simply Supported") then
       half ← truediv L 2;
       mret (scalar_mul w (scalar_sub half x),
             div_scalar (multiply (scalar_mul w x) (scalar_sub L x)) 2)
     else if decide (beam = "Cantilever") then
       mret (scalar_mul w (scalar_sub L x),
             div_scalar (scalar_mul w (square (scalar_sub L x))) 2)
     else if decide (beam = "Fixed End") then
       half ← truediv L 2;
       mret (scalar_mul w (scalar_sub half x),
             div_scalar (multiply (scalar_mul w x) (scalar_sub L x)) 12)
     else
       half ← truediv L 2;
       mret (scalar_mul w (scalar_sub half x),
             div_scalar (multiply (scalar_mul w x) (scalar_sub L x)) 10));
  let ax1 := mkAxes x V "Shear Force Diagram" "" "Shear (kN)" true in
  let ax2 := mkAxes x M "Bending Moment Diagram" "Length (m)" "Moment (kN·m)" true in
  mret (mkFigure [ax1; ax2]).

(** ** The "Calculate Design" button

    The two calls of the [if calc:] block of the user interface, whose five
    results are the text shown under "Design Results". *)

Record DesignResult : Type := mkDesignResult {
  res_Mu : R;
  res_As : R;
  res_Vu : R;
  res_phiVc : R;
  res_status : string
}.

Definition calculate_design (beam : string) (w L b d fc fy : R) : Py DesignResult :=
  '(Mu, As) ← flexural_design beam w L b d fc fy;
  '(Vu, Vc, status) ← shear_design w L b d fc;
  mret (mkDesignResult Mu As Vu Vc status).

(** The entries of the "Beam Type" select box. *)
Definition beam_types : list string :=
  ["Simply Supported"; "Fixed End"; "Cantilever"; "Overhang"].

(** ** Beam drawing (supports attached)

    What [draw_beam] puts on its axes, in the order of the calls: a marker is
    the one-point [ax.plot(x, y, marker=...)], a rectangle the patch added by
    [ax.add_patch(plt.Rectangle((x, y), width, height, ...))]. *)

Inductive Artist : Type :=
| Line2D (xdata ydata : list R) (linewidth : R) (zorder : Z)
| Marker (x y : R) (marker : string) (markersize : R) (zorder : Z)
| Rectangle (xy : R * R) (width height : R) (color : string) (zorder : Z)
| Text (x y : R) (s : string) (ha : string) (fontsize : R).

Record BeamFigure : Type := mkBeamFigure {
  bf_figsize : R * R;
  bf_xlim : R * R;
  bf_ylim : R * R;
  bf_artists : list Artist;
  bf_axis_on : bool
}.

Definition draw_beam (beam : string) : Py BeamFigure :=
  let beam_y := 2 in
  let support_y := 1.75 in
  let support_length := 0.22 in
  let support_height := 1.2 in
  let line := Line2D [1; 9] [beam_y; beam_y] 8 2 in
  supports ←
    (if decide (beam = "Simply Supported") then
       mret [Marker 1 support_y "^" 12 3; Marker 9 support_y "o" 10 3]
     else if decide (beam = "Fixed End") then
       half ← truediv support_height 2;
       let left := Rectangle (1 - support_length, beam_y - half)
                             support_length support_height "black" 5 in
       half ← truediv support_height 2;
       let right := Rectangle (9, beam_y - half)
                              support_length support_height "black" 5 in
       mret [left; right]
     else if decide (beam = "Cantilever") then
       half ← truediv support_height 2;
       mret [Rectangle (1 - support_length, beam_y - half)
                       support_length support_height "black" 5]
     else if decide (beam = "Overhang") then
       mret [Marker 2.5 support_y "^" 12 3; Marker 9 support_y "o" 10 3]
     else mret []);
  let title := Text 5 2.6 (beam +:+ " Beam") "center" 11 in
  mret (mkBeamFigure (7, 2) (0, 10) (0, 3) (line :: supports ++ [title]) false).

(** ** The specification's vocabulary

    The enumerated variants, the tables of the Envelope Model and the shear
    status, written from the specification and compared below with what the
    code computes. *)

Inductive BeamVariant : Type :=
| SimplySupported
| FixedEnd
| Cantilever
| Overhang.

Definition variant_name (v : BeamVariant) : string :=
  match v with
  | SimplySupported => "Simply Supported"
  | FixedEnd => "Fixed End"
  | Cantilever => "Cantilever"
  | Overhang => "Overhang"
  end.

(** Maximum moment by variant. *)
Definition Mu_max (v : BeamVariant) (w L : R) : R :=
  match v with
  | SimplySupported => w * L ^ 2 / 8
  | FixedEnd => w * L ^ 2 / 12
  | Cantilever => w * L ^ 2 / 2
  | Overhang => w * L ^ 2 / 10
  end.

(** Shear and moment distribution by variant. *)
Definition V_at (v : BeamVariant) (w L x : R) : R :=
  match v with
  | SimplySupported => w * (L / 2 - x)
  | FixedEnd => w * (L / 2 - x)
  | Cantilever => w * (L - x)
  | Overhang => w * (L / 2 - x)
  end.

Definition M_at (v : BeamVariant) (w L x : R) : R :=
  match v with
  | SimplySupported => w * x * (L - x) / 2
  | FixedEnd => w * x * (L - x) / 12
  | Cantilever => w * (L - x) ^ 2 / 2
  | Overhang => w * x * (L - x) / 10
  end.

Inductive ShearStatus : Type :=
| Safe
| StirrupsRequired.

Definition status_text (s : ShearStatus) : string :=
  match s with
  | Safe => "SAFE"
  | StirrupsRequired => "STIRRUPS REQUIRED"
  end.

(** [y] is [x] rounded to two decimals: a whole number of hundredths, at
    most half a hundredth away. *)
Definition rounded_2dp (x y : R) : Prop :=
  exists n : Z, y = IZR n / 100 /\ Rabs (y - x) <= 1 / 200.

(** The [i]-th of [n] evenly spaced points from [0] to [L]. *)
Definition sample_point (L : R) (n i : nat) : R := INR i * L / INR (n - 1).

(** The two curves of a figure are the given functions sampled at [xs]. *)
Definition plots (fig : Figure) (xs : list R) (V M : R -> R) : Prop :=
  exists ax1 ax2,
    fig_axes fig = [ax1; ax2] /\
    ax_xdata ax1 = xs /\ ax_ydata ax1 = V <$> xs /\
    ax_xdata ax2 = xs /\ ax_ydata ax2 = M <$> xs.

(** The figure showing [V] and [M] sampled at [xs], laid out as
    [draw_diagrams] does. *)
Definition diagram_figure (xs : list R) (V M : R -> R) : Figure :=
  mkFigure
    [ mkAxes xs (V <$> xs) "Shear Force Diagram" "" "Shear (kN)" true;
      mkAxes xs (M <$> xs) "Bending Moment Diagram" "Length (m)" "Moment (kN·m)" true ].

(** The variant whose formulas the [if]/[elif] chain of [draw_diagrams]
    selects for a string. *)
Definition plotted_variant (beam : string) : BeamVariant :=
  if decide (beam = "Simply Supported") then SimplySupported
  else if decide (beam = "Cantilever") then Cantilever
  else if decide (beam = "Fixed End") then FixedEnd
  else Overhang.


(** The points an artist is anchored at: the vertices of a line, the position
    of a marker or of a text, the two opposite corners of a rectangle. *)
Definition artist_points (a : Artist) : list (R * R) :=
  match a with
  | Line2D xs ys _ _ => zip xs ys
  | Marker x y _ _ _ => [(x, y)]
  | Rectangle (x, y) width height _ _ => [(x, y); (x + width, y + height)]
  | Text x y _ _ _ => [(x, y)]
  end.

Definition is_marker (a : Artist) : bool :=
  match a with Marker _ _ _ _ _ => true | _ => false end.

Definition is_rectangle (a : Artist) : bool :=
  match a with Rectangle _ _ _ _ _ => true | _ => false end.

(** How many artists of a figure satisfy a test. *)
Definition count_artists (test : Artist -> bool) (fig : BeamFigure) : nat :=
  length (List.filter test (bf_artists fig)).


(** The supports that [draw_beam] attaches for a string, and the figure it
    returns, as values. *)
Definition beam_supports (beam : string) : list Artist :=
  if decide (beam = "Simply Supported") then
    [Marker 1 1.75 "^" 12 3; Marker 9 1.75 "o" 10 3]
  else if decide (beam = "Fixed End") then
    [Rectangle (1 - 0.22, 2 - 1.2 / 2) 0.22 1.2 "black" 5;
     Rectangle (9, 2 - 1.2 / 2) 0.22 1.2 "black" 5]
  else if decide (beam = "Cantilever") then
    [Rectangle (1 - 0.22, 2 - 1.2 / 2) 0.22 1.2 "black" 5]
  else if decide (beam = "Overhang") then
    [Marker 2.5 1.75 "^" 12 3; Marker 9 1.75 "o" 10 3]
  else [].

Definition beam_figure (beam : string) : BeamFigure :=
  mkBeamFigure (7, 2) (0, 10) (0, 3)
    (Line2D [1; 9] [2; 2] 8 2 :: beam_supports beam ++
     [Text 5 2.6 (beam +:+ " Beam") "center" 11])
    false.

(** A support symbol is attached to the beam (the bar from [x = 1] to
    [x = 9] at height 2, drawn with z-order 2): a marker sits under the bar
    within its span, a rectangle abuts one of its ends and is centred on its
    axis, and both are drawn above it. *)
Definition attached (a : Artist) : Prop :=
  match a with
  | Marker x y _ _ z => 1 <= x <= 9 /\ y < 2 /\ (2 < z)%Z
  | Rectangle (x, y) width height _ z =>
      (x + width = 1 \/ x = 9) /\ y + height / 2 = 2 /\ (2 < z)%Z
  | _ => True
  end.

(** ** The design functions in binary64

    [max_moment], [flexural_design], [shear_design] and the two calls of the
    button once more, now on the program's own numbers: Python floats are
    IEEE 754 binary64 values and every operation rounds to nearest, ties to
    even.  An integer literal of the source ([8], [2], [1000], the default
    [0] of [dict.get]) stands for the float of the same value. *)

Module Binary64.

Local Open Scope float_scope.

Section Libm.

(** The one function of the C library the design functions reach:
    [pow(x, 2.0)] for a finite [x > 0] other than 1, with whether the call
    reported a range error ([errno == ERANGE]).  It is a parameter: its last
    bit differs between libraries. *)
Variable libm_pow_2 : float -> float * bool.

(** [x / y]: "float division by zero" when the divisor is [0.0] or [-0.0]. *)
Definition truediv (x y : float) : Py float :=
  if y =? 0 then raise ZeroDivisionError else mret (x / y).

(** [x ** 2] ([float_pow]): a NaN goes through, an infinity gives
    [fabs(x)], a zero gives [0.0] and [1] or [-1] gives [1.0] without a call
    of the C library; otherwise the result is [pow(fabs(x), 2.0)] of the C
    library, and [OverflowError] ("Numerical result out of range") is raised
    when that result is infinite, or when the library reported a range error
    and the result is not a zero. *)
Definition pow_2 (x : float) : Py float :=
  if is_nan x then mret x
  else if is_infinity x then mret (abs x)
  else if x =? 0 then mret 0
  else
    let iv := if x <? 0 then - x else x in
    if iv =? 1 then mret 1
    else
      let '(ix, erange) := libm_pow_2 iv in
      let erange := if erange then negb (ix =? 0) else is_infinity ix in
      if erange then raise OverflowError else mret ix.

(** [math.sqrt(x)]: "math domain error" below zero, [-inf] included; [-0.0]
    and NaN go through. *)
Definition math_sqrt (x : float) : Py float :=
  if x <? 0 then raise ValueError else mret (PrimFloat.sqrt x).

(** The integer nearest to [100 * m * 2^e], ties going to the even one. *)
Definition hundredths (m : positive) (e : Z) : Z :=
  match e with
  | Zneg k =>
      let den := Z.pow_pos 2 k in
      let num := (100 * Zpos m)%Z in
      let q := (num / den)%Z in
      let r := (num mod den)%Z in
      match (2 * r ?= den)%Z with
      | Lt => q
      | Gt => (q + 1)%Z
      | Eq => if Z.even q then q else (q + 1)%Z
      end
  | _ => (100 * Zpos m * 2 ^ e)%Z
  end.

(** [round(x, 2)] ([float.__round__]): the exact value of [x] is rounded to
    a whole number of hundredths, ties to even, and the float nearest to that
    decimal is returned, with the sign of [x]; zeros, infinities and NaN are
    returned as they are.  From [2^46] on, floats are more than 0.01 apart
    and the result is [x] itself; below, the number of hundredths is under
    [2^53], so it is a float and its division by 100 is correctly rounded. *)
Definition round_2 (x : float) : float :=
  match Prim2SF x with
  | S754_finite s m e =>
      if 0x1p46 <=? abs x then x
      else
        let r := of_uint63 (Uint63.of_Z (hundredths m e)) / 100 in
        if s then - r else r
  | _ => x
  end.

Definition max_moment (beam : string) (w L : float) : Py float :=
  sq ← pow_2 L;
  simply ← truediv (w * sq) 8;
  sq ← pow_2 L;
  fixed ← truediv (w * sq) 12;
  sq ← pow_2 L;
  cantilever ← truediv (w * sq) 2;
  sq ← pow_2 L;
  overhang ← truediv (w * sq) 10;
  mret (default 0
          (({[ "Simply Supported" := simply;
               "Fixed End" := fixed;
               "Cantilever" := cantilever;
               "Overhang" := overhang ]} : gmap string float) !! beam)).

Definition flexural_design (beam : string) (w L b d fc fy : float)
  : Py (float * float) :=
  Mu ← max_moment beam w L;
  let phi := 0.9 in
  As ← truediv (Mu * 1e6) (phi * fy * d * 0.9);
  mret (round_2 Mu, round_2 As).

Definition shear_design (w L b d fc : float) : Py (float * float * string) :=
  Vu ← truediv (w * L) 2;
  let phi := 0.75 in
  root ← math_sqrt fc;
  Vc ← truediv (0.17 * root * b * d) 1000;
  let status :=
    if Vu <=? phi * Vc then "SAFE" else "STIRRUPS REQUIRED" in
  mret (round_2 Vu, round_2 (phi * Vc), status).

Record DesignResult : Type := mkDesignResult {
  res_Mu : float;
  res_As : float;
  res_Vu : float;
  res_phiVc : float;
  res_status : string
}.

Definition calculate_design (beam : string) (w L b d fc fy : float)
  : Py DesignResult :=
  '(Mu, As) ← flexural_design beam w L b d fc fy;
  '(Vu, Vc, status) ← shear_design w L b d fc;
  mret (mkDesignResult Mu As Vu Vc status).

End Libm.

(** A C library whose [pow(x, 2.0)] is the correctly rounded square and
    reports a range error on overflow only. *)
Definition pow_rn (x : float) : float * bool := (x * x, is_infinity (x * x)).

(** The specification's table of maximum moments, on the square [sq] of the
    span as the code computes it. *)
Definition Mu_max (v : BeamVariant) (w sq : float) : float :=
  match v with
  | SimplySupported => w * sq / 8
  | FixedEnd => w * sq / 12
  | Cantilever => w * sq / 2
  | Overhang => w * sq / 10
  end.

(** The divisor of the steel area, [phi * fy * d * 0.9]. *)
Definition steel_divisor (fy d : float) : float := 0.9 * fy * d * 0.9.

End Binary64.

(** A float that is a zero or a finite non-zero number. *)
Definition zero_or_finite (x : spec_float) : bool :=
  match x with
  | S754_zero _ | S754_finite _ _ _ => true
  | _ => false
  end.

(** The mantissa of the float [0.9], whose exponent is [-53]. *)
Definition mantissa_09 : positive := 8106479329266893.

(** * Properties *)

(** ** Scalar operations *)

Lemma truediv_nonzero (x y : R) : y <> 0 -> truediv x y = mret (x / y).
Proof.
  intros Hy. unfold truediv.
  destruct (Req_dec_T y 0) as [E | _]; [contradiction | reflexivity].
Qed.

Lemma truediv_zero (x : R) : truediv x 0 = raise ZeroDivisionError.
Proof.
  unfold truediv.
  destruct (Req_dec_T 0 0) as [_ | N]; [reflexivity | contradiction N; reflexivity].
Qed.

Lemma math_sqrt_nonneg (x : R) : 0 <= x -> math_sqrt x = mret (sqrt x).
Proof.
  intros Hx. unfold math_sqrt.
  destruct (Rlt_dec x 0) as [Hlt | _]; [lra | reflexivity].
Qed.

Lemma math_sqrt_negative (x : R) : x < 0 -> math_sqrt x = raise ValueError.
Proof.
  intros Hx. unfold math_sqrt.
  destruct (Rlt_dec x 0) as [_ | Hge]; [reflexivity | lra].
Qed.

(** ** Rounding *)

(** Strictly inside the half-open unit around [n], the nearest integer is [n]. *)
Lemma round_half_even_near (x : R) (n : Z) :
  IZR n - 1 / 2 < x < IZR n + 1 / 2 -> round_half_even x = n.
Proof.
  intros [Hlo Hhi]. unfold round_half_even.
  destruct (Zfloor_bound x) as [Fl Fu].
  assert (Hn : (Zfloor x = n \/ Zfloor x = n - 1)%Z).
  { assert (IZR (Zfloor x) < IZR (n + 1)) as A by (rewrite plus_IZR; lra).
    assert (IZR (n - 2) < IZR (Zfloor x)) as B by (rewrite minus_IZR; lra).
    apply lt_IZR in A, B. lia. }
  destruct Hn as [E | E]; rewrite E in *.
  - destruct (Rlt_dec (x - IZR n) (1 / 2)); [reflexivity | lra].
  - rewrite minus_IZR in *.
    destruct (Rlt_dec (x - (IZR n - 1)) (1 / 2)); [lra |].
    destruct (Rlt_dec (1 / 2) (x - (IZR n - 1))); [lia | lra].
Qed.

(** The nearest integer is never more than one half away. *)
Lemma round_half_even_bound (x : R) :
  - (1 / 2) <= IZR (round_half_even x) - x <= 1 / 2.
Proof.
  unfold round_half_even.
  destruct (Zfloor_bound x) as [Fl Fu].
  destruct (Rlt_dec (x - IZR (Zfloor x)) (1 / 2)) as [A | A]; [lra |].
  destruct (Rlt_dec (1 / 2) (x - IZR (Zfloor x))) as [B | B].
  - rewrite plus_IZR. lra.
  - destruct (Z.even (Zfloor x)); [| rewrite plus_IZR]; lra.
Qed.

(** An exact tie goes to the even neighbour. *)
Lemma round_half_even_tie (n : Z) :
  round_half_even (IZR n + 1 / 2) = if Z.even n then n else (n + 1)%Z.
Proof.
  unfold round_half_even.
  assert (E : Zfloor (IZR n + 1 / 2) = n) by (apply Zfloor_eq; lra).
  rewrite E.
  destruct (Rlt_dec (IZR n + 1 / 2 - IZR n) (1 / 2)); [lra |].
  destruct (Rlt_dec (1 / 2) (IZR n + 1 / 2 - IZR n)); [lra | reflexivity].
Qed.

Lemma round_2_near (x : R) (n : Z) :
  IZR n - 1 / 2 < 100 * x < IZR n + 1 / 2 -> round x 2 = IZR n / 100.
Proof.
  intros H. unfold round.
  replace (10 ^ 2) with 100 by (simpl; lra).
  rewrite (round_half_even_near (x * 100) n) by lra. reflexivity.
Qed.

Lemma round_2_integer (n : Z) : round (IZR n) 2 = IZR n.
Proof.
  rewrite (round_2_near (IZR n) (100 * n)); rewrite mult_IZR; lra.
Qed.

(** [round(0.125, 2)] is [0.12]: the tie goes down to the even hundredth. *)
Example round_tie_to_even : round 0.125 2 = 0.12.
Proof.
  unfold round. replace (10 ^ 2) with 100 by (simpl; lra).
  replace (0.125 * 100) with (IZR 12 + 1 / 2) by lra.
  rewrite round_half_even_tie. cbn [Z.even]. lra.
Qed.

Lemma round_rounded_2dp (x : R) : rounded_2dp x (round x 2).
Proof.
  pose proof (round_half_even_bound (x * 10 ^ 2)) as B.
  exists (round_half_even (x * 10 ^ 2)). unfold round.
  replace (10 ^ 2) with 100 in * by (simpl; lra).
  split; [reflexivity |].
  apply Rabs_le. lra.
Qed.

(** ** Sequencing *)

Lemma bind_ret {A B : Type} (x : A) (f : A -> Py B) : (mret x ≫= f) = f x.
Proof. reflexivity. Qed.

Lemma bind_raise {A B : Type} (e : exn) (f : A -> Py B) :
  (raise e ≫= f) = raise e.
Proof. reflexivity. Qed.

(** ** Maximum moment *)

(** The four table entries are divisions by non-zero literals: building the
    dictionary never raises, and the result is the lookup with default 0. *)
Lemma max_moment_lookup (beam : string) (w L : R) :
  max_moment beam w L =
  mret (default 0
          (({[ "Simply Supported" := w * L ^ 2 / 8;
               "Fixed End" := w * L ^ 2 / 12;
               "Cantilever" := w * L ^ 2 / 2;
               "Overhang" := w * L ^ 2 / 10 ]} : gmap string R) !! beam)).
Proof.
  unfold max_moment.
  rewrite !truediv_nonzero, !bind_ret by lra. reflexivity.
Qed.

Lemma max_moment_variant (v : BeamVariant) (w L : R) :
  max_moment (variant_name v) w L = mret (Mu_max v w L).
Proof.
  rewrite max_moment_lookup. f_equal.
  destruct v; cbn [variant_name Mu_max];
    repeat (rewrite lookup_insert_ne by discriminate);
    first [rewrite lookup_insert_eq | rewrite lookup_singleton_eq]; reflexivity.
Qed.

Lemma not_in_beam_types (beam : string) :
  beam ∉ beam_types ->
  beam <> "Simply Supported" /\ beam <> "Fixed End" /\
  beam <> "Cantilever" /\ beam <> "Overhang".
Proof.
  unfold beam_types. intros H.
  repeat split; intros ->; apply H; set_solver.
Qed.

Lemma variant_name_in_beam_types (v : BeamVariant) : variant_name v ∈ beam_types.
Proof. destruct v; unfold beam_types; cbn [variant_name]; set_solver. Qed.

Lemma beam_types_variant (beam : string) :
  beam ∈ beam_types -> exists v, beam = variant_name v.
Proof.
  unfold beam_types. intros H.
  repeat (apply elem_of_cons in H as [-> | H]);
    [exists SimplySupported | exists FixedEnd | exists Cantilever | exists Overhang |];
    try reflexivity.
  apply elem_of_nil in H. contradiction.
Qed.

(** ** Flexural design *)

Lemma flexural_design_returns (beam : string) (w L b d fc fy Mu : R) :
  max_moment beam w L = mret Mu -> fy <> 0 -> d <> 0 ->
  flexural_design beam w L b d fc fy =
  mret (round Mu 2, round (Mu * 1e6 / (0.9 * fy * d * 0.9)) 2).
Proof.
  intros HMu Hfy Hd. unfold flexural_design.
  rewrite HMu, bind_ret. rewrite truediv_nonzero, bind_ret; [reflexivity |].
  intros E. assert (fy * d = 0) as Z by lra.
  apply Rmult_integral in Z. tauto.
Qed.

(** ** Shear design *)

Lemma shear_design_returns (w L b d fc : R) :
  0 <= fc ->
  shear_design w L b d fc =
  mret (round (w * L / 2) 2,
        round (0.75 * (0.17 * sqrt fc * b * d / 1000)) 2,
        if Rge_dec (0.75 * (0.17 * sqrt fc * b * d / 1000)) (w * L / 2)
        then "SAFE" else "STIRRUPS REQUIRED").
Proof.
  intros Hfc. unfold shear_design.
  rewrite truediv_nonzero, bind_ret by lra.
  rewrite math_sqrt_nonneg, bind_ret by assumption.
  rewrite truediv_nonzero, bind_ret by lra. reflexivity.
Qed.

Lemma shear_design_raises (w L b d fc : R) :
  fc < 0 -> shear_design w L b d fc = raise ValueError.
Proof.
  intros Hfc. unfold shear_design.
  rewrite truediv_nonzero, bind_ret by lra.
  rewrite math_sqrt_negative by assumption. reflexivity.
Qed.

(** ** Arrays *)

Lemma scalar_mul_sub (w c : R) (x : ndarray) :
  scalar_mul w (scalar_sub c x) = (fun v => w * (c - v)) <$> x.
Proof.
  unfold scalar_mul, scalar_sub. rewrite <- list_fmap_compose. reflexivity.
Qed.

Lemma multiply_fmap (f g : R -> R) (x : ndarray) :
  multiply (f <$> x) (g <$> x) = (fun v => f v * g v) <$> x.
Proof.
  unfold multiply. induction x as [| v x IH]; [reflexivity |].
  cbn [fmap list_fmap zip_with]. f_equal. exact IH.
Qed.

Lemma parabola_samples (w L c : R) (x : ndarray) :
  div_scalar (multiply (scalar_mul w x) (scalar_sub L x)) c =
  (fun v => w * v * (L - v) / c) <$> x.
Proof.
  unfold div_scalar, scalar_mul, scalar_sub.
  rewrite multiply_fmap, <- list_fmap_compose. reflexivity.
Qed.

Lemma cantilever_samples (w L : R) (x : ndarray) :
  div_scalar (scalar_mul w (square (scalar_sub L x))) 2 =
  (fun v => w * (L - v) ^ 2 / 2) <$> x.
Proof.
  unfold div_scalar, scalar_mul, square, scalar_sub.
  rewrite <- !list_fmap_compose. reflexivity.
Qed.

(** For two samples or more, [linspace] is the affine image of the indices. *)
Lemma linspace_samples (start stop : R) (num : nat) :
  (2 <= num)%nat ->
  linspace start stop num =
  (fun i => start + INR i * (stop - start) / INR (num - 1)) <$> seq 0 num.
Proof.
  intros Hnum. unfold linspace. cbv zeta.
  assert (Hdiv : INR (num - 1) <> 0) by (apply not_0_INR; lia).
  replace (0 <? num - 1)%nat with true by (symmetry; apply Nat.ltb_lt; lia).
  replace (1 <? num)%nat with true by (symmetry; apply Nat.ltb_lt; lia).
  set (F := fun i : nat => start + INR i * (stop - start) / INR (num - 1)).
  assert (Hy : add_scalar
                 (if Req_dec_T ((stop - start) / INR (num - 1)) 0
                  then mul_scalar (div_scalar (arange num) (INR (num - 1))) (stop - start)
                  else mul_scalar (arange num) ((stop - start) / INR (num - 1)))
                 start
               = F <$> seq 0 num).
  { destruct (Req_dec_T ((stop - start) / INR (num - 1)) 0);
      unfold add_scalar, mul_scalar, div_scalar, arange; rewrite <- !list_fmap_compose;
      apply list_fmap_ext; intros i k _; unfold F; cbn [compose]; field; exact Hdiv. }
  rewrite Hy. apply list_insert_id.
  rewrite list_lookup_fmap, lookup_seq_lt by lia. cbn [fmap option_fmap option_map].
  f_equal. unfold F. cbn [Nat.add]. field. exact Hdiv.
Qed.

Lemma length_linspace (start stop : R) (num : nat) :
  (2 <= num)%nat -> length (linspace start stop num) = num.
Proof.
  intros Hnum. rewrite linspace_samples by assumption.
  rewrite length_fmap. apply length_seq.
Qed.

(** The samples taken by [draw_diagrams]: 100 points, the [i]-th at
    [i * L / 99]. *)
Lemma linspace_100 (L : R) :
  linspace 0 L 100 = (fun i => sample_point L 100 i) <$> seq 0 100.
Proof.
  rewrite linspace_samples by lia.
  apply list_fmap_ext. intros i k _. unfold sample_point.
  rewrite Rminus_0_r, Rplus_0_l. reflexivity.
Qed.

Lemma linspace_100_lookup (L : R) (i : nat) :
  (i < 100)%nat -> linspace 0 L 100 !! i = Some (sample_point L 100 i).
Proof.
  intros Hi. rewrite linspace_100, list_lookup_fmap, lookup_seq_lt by assumption.
  reflexivity.
Qed.

Lemma INR_99 : INR (100 - 1) = 99.
Proof. change (100 - 1)%nat with 99%nat. rewrite INR_IZR_INZ. reflexivity. Qed.

Lemma sample_point_first (L : R) : sample_point L 100 0 = 0.
Proof. unfold sample_point. rewrite INR_99. cbn [INR]. lra. Qed.

Lemma sample_point_last (L : R) : sample_point L 100 99 = L.
Proof.
  unfold sample_point. rewrite INR_99.
  rewrite (INR_IZR_INZ 99). change (IZR (Z.of_nat 99)) with 99. lra.
Qed.

Lemma sample_point_step (L : R) (i : nat) :
  sample_point L 100 (S i) - sample_point L 100 i = L / 99.
Proof. unfold sample_point. rewrite INR_99, S_INR. lra. Qed.

Lemma sample_point_range (L : R) (i : nat) :
  0 <= L -> (i < 100)%nat -> 0 <= sample_point L 100 i <= L.
Proof.
  intros HL Hi. unfold sample_point. rewrite INR_99.
  assert (0 <= INR i) by apply pos_INR.
  assert (INR i <= 99).
  { replace 99 with (INR 99) by (rewrite INR_IZR_INZ; reflexivity).
    apply le_INR. lia. }
  split; [| nra]. apply Rmult_le_pos; [nra | lra].
Qed.

(** ** Diagrams *)

Lemma draw_diagrams_variant (v : BeamVariant) (w L : R) :
  draw_diagrams (variant_name v) w L =
  mret (diagram_figure (linspace 0 L 100) (V_at v w L) (M_at v w L)).
Proof.
  unfold draw_diagrams, diagram_figure.
  destruct v; cbn [variant_name V_at M_at];
    repeat (rewrite decide_False by discriminate);
    try (rewrite decide_True by reflexivity);
    rewrite ?truediv_nonzero, ?bind_ret by lra;
    rewrite ?scalar_mul_sub, ?parabola_samples, ?cantilever_samples;
    reflexivity.
Qed.

(** Any other string takes the final [else]. *)
Lemma draw_diagrams_else (beam : string) (w L : R) :
  beam <> "Simply Supported" -> beam <> "Cantilever" -> beam <> "Fixed End" ->
  draw_diagrams beam w L =
  mret (diagram_figure (linspace 0 L 100) (V_at Overhang w L) (M_at Overhang w L)).
Proof.
  intros H1 H2 H3. unfold draw_diagrams, diagram_figure. cbn [V_at M_at].
  rewrite !decide_False by assumption.
  rewrite truediv_nonzero, bind_ret by lra.
  rewrite scalar_mul_sub, parabola_samples. reflexivity.
Qed.

Lemma diagram_figure_plots (xs : list R) (V M : R -> R) :
  plots (diagram_figure xs V M) xs V M.
Proof. unfold plots, diagram_figure. eexists _, _. cbn. repeat split. Qed.

(** ** The worked example: w = 30, L = 20, b = 300, d = 500, f'c = 30, fy = 420 *)

Lemma sqrt_30_bounds : 5.477 < sqrt 30 < 5.4773.
Proof.
  assert (H30 : 0 <= 30) by lra.
  pose proof (sqrt_pos 30) as Hpos.
  pose proof (sqrt_sqrt 30 H30) as Hsq.
  split; apply Rnot_le_lt; intros Hle; nra.
Qed.

Lemma round_2_to (x y : R) (n : Z) :
  y = IZR n / 100 -> IZR n - 1 / 2 < 100 * x < IZR n + 1 / 2 -> round x 2 = y.
Proof. intros -> H. apply round_2_near. exact H. Qed.

Lemma example_moment : max_moment "Simply Supported" 30 20 = mret 1500.
Proof.
  rewrite (max_moment_variant SimplySupported). cbn [Mu_max]. f_equal. lra.
Qed.

Lemma example_flexural (b fc : R) :
  flexural_design "Simply Supported" 30 20 b 500 fc 420 = mret (1500, 8818.34).
Proof.
  rewrite (flexural_design_returns _ _ _ _ _ _ _ 1500 example_moment) by lra.
  rewrite (round_2_integer 1500).
  rewrite (round_2_to _ 8818.34 881834); [reflexivity | lra |].
  replace (0.9 * 420 * 500 * 0.9) with 170100 by lra. lra.
Qed.

Lemma example_shear :
  shear_design 30 20 300 500 30 = mret (300, 104.75, "STIRRUPS REQUIRED").
Proof.
  pose proof sqrt_30_bounds as [Hlo Hhi].
  rewrite shear_design_returns by lra.
  replace (30 * 20 / 2) with 300 by lra.
  rewrite (round_2_integer 300).
  rewrite (round_2_to _ 104.75 10475) by lra.
  destruct (Rge_dec (0.75 * (0.17 * sqrt 30 * 300 * 500 / 1000)) 300) as [Hge | _];
    [lra | reflexivity].
Qed.

Lemma example_design :
  calculate_design "Simply Supported" 30 20 300 500 30 420 =
  mret (mkDesignResult 1500 8818.34 300 104.75 "STIRRUPS REQUIRED").
Proof.
  unfold calculate_design. rewrite example_flexural, example_shear. reflexivity.
Qed.

(** ** Every string is plotted *)

(** Whatever the string, [draw_diagrams] returns a figure: the one of the
    variant the string names, the Overhang one for any other string. *)
Lemma draw_diagrams_returns (beam : string) (w L : R) :
  draw_diagrams beam w L =
  mret (diagram_figure (linspace 0 L 100)
          (V_at (plotted_variant beam) w L) (M_at (plotted_variant beam) w L)).
Proof.
  unfold plotted_variant.
  destruct (decide (beam = "Simply Supported")) as [-> | H1];
    [exact (draw_diagrams_variant SimplySupported w L) |].
  destruct (decide (beam = "Cantilever")) as [-> | H2];
    [exact (draw_diagrams_variant Cantilever w L) |].
  destruct (decide (beam = "Fixed End")) as [-> | H3];
    [exact (draw_diagrams_variant FixedEnd w L) |].
  apply draw_diagrams_else; assumption.
Qed.

Lemma plotted_variant_unknown (beam : string) :
  beam ∉ beam_types -> plotted_variant beam = Overhang.
Proof.
  intros H. apply not_in_beam_types in H as (H1 & H2 & H3 & _).
  unfold plotted_variant. rewrite !decide_False by assumption. reflexivity.
Qed.

Lemma linspace_100_elem (L x : R) :
  x ∈ linspace 0 L 100 -> exists i, (i < 100)%nat /\ x = sample_point L 100 i.
Proof.
  rewrite linspace_100. intros H.
  apply list_elem_of_fmap in H as (i & -> & Hi).
  apply elem_of_seq in Hi. exists i. split; [lia | reflexivity].
Qed.

Lemma sample_point_99 (L : R) (i : nat) : sample_point L 100 i = INR i * L / 99.
Proof. unfold sample_point. rewrite INR_99. reflexivity. Qed.

(** With a zero span all the samples coincide. *)
Lemma linspace_zero_span : linspace 0 0 100 = replicate 100 0.
Proof.
  rewrite linspace_100. apply list_eq. intros i.
  destruct (Nat.lt_ge_cases i 100) as [Hi | Hi].
  - rewrite list_lookup_fmap, lookup_seq_lt, lookup_replicate_2 by assumption.
    cbn. f_equal. rewrite sample_point_99. lra.
  - rewrite !lookup_ge_None_2; [reflexivity | |].
    + rewrite length_replicate. exact Hi.
    + rewrite length_fmap, length_seq. exact Hi.
Qed.

Lemma continuous_not_a_beam_type : "Continuous" ∉ beam_types.
Proof.
  unfold beam_types. intros H.
  repeat (apply elem_of_cons in H as [H | H]; [discriminate H |]).
  apply elem_of_nil in H. exact H.
Qed.

(** ** Shear status *)


(** ** Binary64: shifts and digits of the IEEE specification *)

Section SpecFloatFacts.

Local Open Scope Z_scope.

Lemma digits2_pos_size (p : positive) : digits2_pos p = Pos.size p.
Proof. induction p as [p IH | p IH |]; cbn; rewrite ?IH; reflexivity. Qed.

Lemma digits2_pos_bounds (p : positive) :
  2 ^ (Zpos (digits2_pos p) - 1) <= Zpos p < 2 ^ Zpos (digits2_pos p).
Proof.
  rewrite digits2_pos_size.
  pose proof (Pos.size_gt p) as Hgt. pose proof (Pos.size_le p) as Hle.
  apply Pos2Z.pos_lt_pos in Hgt. apply Pos2Z.pos_le_pos in Hle.
  rewrite Pos2Z.inj_pow in Hgt, Hle. change (Zpos p~0) with (2 * Zpos p) in Hle.
  split; [| exact Hgt].
  replace (Zpos (Pos.size p)) with (Z.succ (Zpos (Pos.size p) - 1)) in Hle by lia.
  rewrite Z.pow_succ_r in Hle by lia. lia.
Qed.

Lemma Zdigits2_le (z k : Z) : 0 <= z < 2 ^ k -> 0 <= k -> 0 <= Zdigits2 z <= k.
Proof.
  intros [Hz Hlt] Hk. destruct z as [| p | p]; cbn [Zdigits2]; [lia | | lia].
  pose proof (digits2_pos_bounds p) as [Hlo _].
  split; [lia |].
  assert (H : 2 ^ (Zpos (digits2_pos p) - 1) < 2 ^ k) by lia.
  apply Z.pow_lt_mono_r_iff in H; lia.
Qed.

(** One step of the right shift halves the mantissa. *)
Lemma shr_m_shr_1 (mrs : shr_record) :
  0 <= shr_m mrs -> shr_m (shr_1 mrs) = shr_m mrs / 2.
Proof.
  destruct mrs as [m r s]. cbn [shr_m]. intros Hm.
  rewrite <- Z.div2_div.
  destruct m as [| [p | p |] | p]; try reflexivity. lia.
Qed.

Lemma shr_m_iter_pos (p : positive) (mrs : shr_record) :
  0 <= shr_m mrs ->
  shr_m (SpecFloat.iter_pos shr_1 p mrs) = shr_m mrs / 2 ^ Zpos p.
Proof.
  revert mrs. induction p as [p IH | p IH |]; intros mrs Hm; cbn [SpecFloat.iter_pos].
  - assert (E : 2 ^ Zpos p~1 = 2 * (2 ^ Zpos p * 2 ^ Zpos p)).
    { rewrite <- Z.pow_add_r, <- Z.pow_succ_r by lia. f_equal. lia. }
    assert (P : 0 < 2 ^ Zpos p) by (apply Z.pow_pos_nonneg; lia).
    assert (H1 : 0 <= shr_m (shr_1 mrs))
      by (rewrite shr_m_shr_1 by lia; apply Z.div_pos; lia).
    assert (H2 : 0 <= shr_m (SpecFloat.iter_pos shr_1 p (shr_1 mrs)))
      by (rewrite IH by lia; apply Z.div_pos; lia).
    rewrite IH, IH, shr_m_shr_1, E by lia.
    rewrite !Z.div_div by lia. reflexivity.
  - assert (E : 2 ^ Zpos p~0 = 2 ^ Zpos p * 2 ^ Zpos p).
    { rewrite <- Z.pow_add_r by lia. f_equal. lia. }
    assert (P : 0 < 2 ^ Zpos p) by (apply Z.pow_pos_nonneg; lia).
    assert (H2 : 0 <= shr_m (SpecFloat.iter_pos shr_1 p mrs))
      by (rewrite IH by lia; apply Z.div_pos; lia).
    rewrite IH, IH, E by lia.
    rewrite Z.div_div by lia. reflexivity.
  - rewrite shr_m_shr_1 by lia. reflexivity.
Qed.

Lemma shr_spec (mrs : shr_record) (e n : Z) :
  0 <= shr_m mrs ->
  shr_m (fst (shr mrs e n)) = shr_m mrs / 2 ^ Z.max 0 n /\
  snd (shr mrs e n) = e + Z.max 0 n.
Proof.
  intros Hm. destruct n as [| p | p]; cbn [shr fst snd].
  - rewrite Z.max_l by lia. rewrite Z.div_1_r. lia.
  - rewrite Z.max_r by lia. split; [apply shr_m_iter_pos; exact Hm | reflexivity].
  - rewrite Z.max_l by lia. rewrite Z.div_1_r. lia.
Qed.

Lemma round_nearest_even_bounds (m : Z) (l : location) :
  m <= round_nearest_even m l <= m + 1.
Proof.
  destruct l as [| [ | | ]]; cbn [round_nearest_even]; try lia.
  destruct (Z.even m); lia.
Qed.

(** The product of 0.9 and a finite float never overflows. *)
Lemma SF64mul_09_finite (s : bool) (m : positive) (e : Z) :
  valid_binary (S754_finite s m e) = true ->
  zero_or_finite
    (SF64mul (S754_finite false mantissa_09 (-53)) (S754_finite s m e)) = true.
Proof.
  unfold SpecFloat.valid_binary, SpecFloat.bounded, SpecFloat.canonical_mantissa,
    SpecFloat.fexp, SpecFloat.emin.
  intros Hv. apply andb_prop in Hv as [Hc He].
  apply Z.eqb_eq in Hc. apply Z.leb_le in He.
  change prec with 53 in *. change emax with 1024 in *.
  pose proof (digits2_pos_bounds m) as [Hmlo Hmhi].
  set (dm := Zpos (digits2_pos m)) in *.
  assert (Hdm : 1 <= dm <= 53) by lia.
  unfold SF64mul, SpecFloat.SFmul, SpecFloat.binary_round_aux. cbn [xorb].
  change prec with 53. change emax with 1024.
  set (M := Zpos (mantissa_09 * m)).
  assert (HM : M = Zpos mantissa_09 * Zpos m) by reflexivity.
  pose proof (digits2_pos_bounds (mantissa_09 * m)) as [HMlo HMhi].
  fold M in HMlo, HMhi.
  set (D := Zpos (digits2_pos (mantissa_09 * m))) in *.
  assert (H09 : 2 ^ 52 <= Zpos mantissa_09 < 2 ^ 53)
    by (unfold mantissa_09; split; [vm_compute; discriminate | reflexivity]).
  assert (HD : dm + 52 <= D <= dm + 53).
  { assert (A : 2 ^ (dm - 1) * 2 ^ 52 <= M) by nia.
    assert (B : M < 2 ^ dm * 2 ^ 53) by nia.
    rewrite <- Z.pow_add_r in A, B by lia.
    assert (A' : 2 ^ (dm - 1 + 52) < 2 ^ D) by lia.
    assert (B' : 2 ^ (D - 1) < 2 ^ (dm + 53)) by lia.
    apply Z.pow_lt_mono_r_iff in A'; [| lia | lia].
    apply Z.pow_lt_mono_r_iff in B'; lia. }
  unfold SpecFloat.shr_fexp, SpecFloat.fexp, SpecFloat.emin.
  change (Zdigits2 M) with D.
  set (rec0 := shr_record_of_loc M loc_Exact).
  assert (Hrec0 : shr_m rec0 = M) by reflexivity.
  set (n := Z.max (D + (-53 + e) - 53) (3 - 1024 - 53) - (-53 + e)).
  destruct (shr_spec rec0 (-53 + e) n ltac:(rewrite Hrec0; lia)) as [Hs1 Hs2].
  destruct (shr rec0 (-53 + e) n) as [mrs' e'] eqn:Eshr. cbn [fst snd] in Hs1, Hs2.
  assert (Hn : 0 <= n) by lia.
  rewrite Z.max_r in Hs1, Hs2 by lia.
  set (m1 := round_nearest_even (shr_m mrs') (loc_of_shr_record mrs')).
  pose proof (round_nearest_even_bounds (shr_m mrs') (loc_of_shr_record mrs')) as Hm1.
  fold m1 in Hm1.
  assert (Hm' : 0 <= shr_m mrs' < 2 ^ 53).
  { rewrite Hs1, Hrec0. split; [apply Z.div_pos; [lia | apply Z.pow_pos_nonneg; lia] |].
    apply Z.div_lt_upper_bound; [apply Z.pow_pos_nonneg; lia |].
    rewrite <- Z.pow_add_r by lia.
    assert (2 ^ D <= 2 ^ (n + 53)) by (apply Z.pow_le_mono_r; lia). lia. }
  assert (Hd1 : 0 <= Zdigits2 m1 <= 54).
  { apply Zdigits2_le; [| lia]. change (2 ^ 54) with (2 * 2 ^ 53). lia. }
  assert (Hd1' : e' = 971 -> Zdigits2 m1 <= 53).
  { intros He'. apply Zdigits2_le; [| lia]. split; [lia |].
    assert (En : n = 53) by lia. assert (Edm : dm = 53) by lia.
    assert (shr_m mrs' < Zpos mantissa_09); [| lia].
    rewrite Hs1, Hrec0. apply Z.div_lt_upper_bound; [apply Z.pow_pos_nonneg; lia |].
    rewrite En, HM. rewrite Edm in Hmhi. nia. }
  set (rec1 := shr_record_of_loc m1 loc_Exact).
  assert (Hrec1 : shr_m rec1 = m1) by reflexivity.
  set (n2 := Z.max (Zdigits2 m1 + e' - 53) (3 - 1024 - 53) - e').
  destruct (shr_spec rec1 e' n2 ltac:(rewrite Hrec1; lia)) as [Ht1 Ht2].
  destruct (shr rec1 e' n2) as [mrs'' e''] eqn:Eshr2. cbn [fst snd] in Ht1, Ht2.
  assert (Hm'' : 0 <= shr_m mrs'').
  { rewrite Ht1, Hrec1. apply Z.div_pos; [lia | apply Z.pow_pos_nonneg; lia]. }
  assert (He'' : e'' <= 971).
  { destruct (Z.eq_dec e' 971) as [E | E]; [specialize (Hd1' E) |]; lia. }
  destruct (shr_m mrs'') as [| p | p]; [reflexivity | | lia].
  apply Z.leb_le in He''. change (1024 - 53) with 971. rewrite He''. reflexivity.
Qed.

End SpecFloatFacts.

(** ** Binary64: zeros, finite floats and order *)

Section Binary64Facts.

Local Open Scope float_scope.

Variable libm : float -> float * bool.

Lemma eqb_zero_inv (x : float) :
  (x =? 0) = true -> exists s : bool, Prim2SF x = S754_zero s.
Proof.
  rewrite FloatAxioms.eqb_spec. change (Prim2SF 0) with (S754_zero false).
  destruct (Prim2SF x) as [s | s | | s m e]; cbn; try discriminate.
  - intros _. exists s. reflexivity.
  - destruct s; discriminate.
  - destruct s; discriminate.
Qed.

Lemma eqb_zero_intro (x : float) (s : bool) :
  Prim2SF x = S754_zero s -> (x =? 0) = true.
Proof.
  intros H. rewrite FloatAxioms.eqb_spec, H. reflexivity.
Qed.

Lemma is_finite_zero_or_finite (x : float) :
  is_finite x = true -> zero_or_finite (Prim2SF x) = true.
Proof.
  unfold is_finite, is_nan, is_infinity.
  rewrite !FloatAxioms.eqb_spec, FloatAxioms.abs_spec. change (Prim2SF infinity) with (S754_infinity false).
  destruct (Prim2SF x) as [s | s | | s m e]; try (intros _; reflexivity).
  - destruct s; cbn; discriminate.
  - cbn. discriminate.
Qed.

(** A zero times a finite float, either way round, is a zero. *)
Lemma mul_zero_l (x y : float) :
  (x =? 0) = true -> zero_or_finite (Prim2SF y) = true -> (x * y =? 0) = true.
Proof.
  intros Hx Hy. apply eqb_zero_inv in Hx as [s Hs].
  destruct (Prim2SF y) as [t | t | | t m e] eqn:Ey; try discriminate Hy.
  - apply (eqb_zero_intro _ (xorb s t)). rewrite FloatAxioms.mul_spec, Hs, Ey. reflexivity.
  - apply (eqb_zero_intro _ (xorb s t)). rewrite FloatAxioms.mul_spec, Hs, Ey. reflexivity.
Qed.

Lemma mul_zero_r (x y : float) :
  zero_or_finite (Prim2SF x) = true -> (y =? 0) = true -> (x * y =? 0) = true.
Proof.
  intros Hx Hy. apply eqb_zero_inv in Hy as [s Hs].
  destruct (Prim2SF x) as [t | t | | t m e] eqn:Ex; try discriminate Hx.
  - apply (eqb_zero_intro _ (xorb t s)). rewrite FloatAxioms.mul_spec, Hs, Ex. reflexivity.
  - apply (eqb_zero_intro _ (xorb t s)). rewrite FloatAxioms.mul_spec, Hs, Ex. reflexivity.
Qed.

(** 0.9 times a finite float is finite. *)
Lemma mul_09_zero_or_finite (x : float) :
  zero_or_finite (Prim2SF x) = true -> zero_or_finite (Prim2SF (0.9 * x)) = true.
Proof.
  intros Hx. rewrite FloatAxioms.mul_spec.
  change (Prim2SF 0.9) with (S754_finite false mantissa_09 (-53)).
  pose proof (Prim2SF_valid x) as Hv.
  destruct (Prim2SF x) as [t | t | | t m e]; try discriminate Hx.
  - reflexivity.
  - apply SF64mul_09_finite. exact Hv.
Qed.

(** The divisor of the steel area is zero as soon as [d] or [fy] is, the
    other one being finite. *)
Lemma steel_divisor_zero (fy d : float) :
  ((d =? 0) = true /\ is_finite fy = true) \/
  ((fy =? 0) = true /\ is_finite d = true) ->
  (Binary64.steel_divisor fy d =? 0) = true.
Proof.
  unfold Binary64.steel_divisor.
  assert (H09 : zero_or_finite (Prim2SF 0.9) = true) by reflexivity.
  intros [[Hd Hfy] | [Hfy Hd]].
  - apply mul_zero_l; [| exact H09].
    apply mul_zero_r; [| exact Hd].
    apply mul_09_zero_or_finite, is_finite_zero_or_finite. exact Hfy.
  - apply mul_zero_l; [| exact H09].
    apply mul_zero_l; [| apply is_finite_zero_or_finite; exact Hd].
    apply mul_zero_r; [exact H09 | exact Hfy].
Qed.


(** ** Binary64: scalar operations *)

Lemma truediv_nonzero_b64 (x y : float) :
  (y =? 0) = false -> Binary64.truediv x y = mret (x / y).
Proof. intros H. unfold Binary64.truediv. rewrite H. reflexivity. Qed.

Lemma truediv_zero_b64 (x y : float) :
  (y =? 0) = true -> Binary64.truediv x y = raise ZeroDivisionError.
Proof. intros H. unfold Binary64.truediv. rewrite H. reflexivity. Qed.


Lemma math_sqrt_negative_b64 (x : float) :
  (x <? 0) = true -> Binary64.math_sqrt x = raise ValueError.
Proof. intros H. unfold Binary64.math_sqrt. rewrite H. reflexivity. Qed.

Lemma is_infinity_not_zero (x : float) :
  is_infinity x = true -> (x =? 0) = false.
Proof.
  unfold is_infinity. rewrite !FloatAxioms.eqb_spec, FloatAxioms.abs_spec.
  change (Prim2SF infinity) with (S754_infinity false).
  change (Prim2SF 0) with (S754_zero false).
  destruct (Prim2SF x) as [s | s | | s m e]; cbn; try discriminate;
    intros _; destruct s; reflexivity.
Qed.

(** [x ** 2] raises nothing but [OverflowError]. *)
Lemma pow_2_raises (x : float) (e : exn) :
  Binary64.pow_2 libm x = raise e -> e = OverflowError.
Proof.
  unfold Binary64.pow_2.
  destruct (is_nan x); [discriminate |].
  destruct (is_infinity x); [discriminate |].
  destruct (x =? 0); [discriminate |].
  destruct ((if x <? 0 then - x else x) =? 1); [discriminate |].
  destruct (libm (if x <? 0 then - x else x)) as [ix erange].
  destruct (if erange then negb (ix =? 0) else is_infinity ix); [| discriminate].
  intros [= <-]. reflexivity.
Qed.

(** It does raise when the C library returns an infinity. *)
Lemma pow_2_infinite (x ix : float) (erange : bool) :
  is_nan x = false -> is_infinity x = false -> (x =? 0) = false ->
  ((if x <? 0 then - x else x) =? 1) = false ->
  libm (if x <? 0 then - x else x) = (ix, erange) ->
  is_infinity ix = true ->
  Binary64.pow_2 libm x = raise OverflowError.
Proof.
  intros Hn Hi Hz H1 Hl Hix. unfold Binary64.pow_2.
  rewrite Hn, Hi, Hz, H1, Hl, Hix, (is_infinity_not_zero ix Hix).
  destruct erange; reflexivity.
Qed.

(** The square of a zero is [0.0]. *)
Lemma square_zero (x : float) : (x =? 0) = true -> x * x = 0.
Proof.
  intros H. apply eqb_zero_inv in H as [s Hs]. apply Prim2SF_inj.
  rewrite FloatAxioms.mul_spec, Hs. destruct s; reflexivity.
Qed.

(** The only float equal to [1.0] is [1.0]. *)
Lemma eqb_one_inv (x : float) : (x =? 1) = true -> x = 1.
Proof.
  rewrite FloatAxioms.eqb_spec. intros H. apply Prim2SF_inj.
  change (Prim2SF 1) with (S754_finite false 4503599627370496 (-52)) in *.
  unfold SFeqb, SFcompare in H.
  destruct (Prim2SF x) as [s | s | | s m e]; cbv beta iota in H;
    try discriminate H.
  - destruct s; discriminate H.
  - destruct s; [discriminate H |].
    destruct (e ?= -52)%Z eqn:He; try discriminate H.
    apply Z.compare_eq in He as ->.
    destruct (Pos.compare_cont Eq m 4503599627370496) eqn:Hm; try discriminate H.
    apply Pos.compare_eq in Hm as ->. reflexivity.
Qed.

(** Squaring forgets the sign. *)
Lemma square_opp (x : float) : (- x) * (- x) = x * x.
Proof.
  apply Prim2SF_inj. rewrite !FloatAxioms.mul_spec, FloatAxioms.opp_spec.
  destruct (Prim2SF x) as [s | s | | s m e]; cbn; try reflexivity;
    destruct s; reflexivity.
Qed.

(** With a correctly rounded [pow], the square of a finite float is the
    float product, and [OverflowError] is raised exactly when that product
    is infinite. *)
Lemma pow_2_pow_rn (x : float) :
  is_finite x = true ->
  Binary64.pow_2 Binary64.pow_rn x =
  if is_infinity (x * x) then raise OverflowError else mret (x * x).
Proof.
  intros Hf. unfold is_finite in Hf.
  destruct (is_nan x) eqn:Hn; [discriminate Hf |].
  destruct (is_infinity x) eqn:Hi; [discriminate Hf |].
  unfold Binary64.pow_2. rewrite Hn, Hi.
  destruct (x =? 0) eqn:Hz.
  - rewrite (square_zero x Hz). reflexivity.
  - set (iv := if x <? 0 then - x else x).
    assert (Hsq : iv * iv = x * x).
    { unfold iv. destruct (x <? 0); [apply square_opp | reflexivity]. }
    destruct (iv =? 1) eqn:H1.
    + rewrite <- Hsq, (eqb_one_inv iv H1). reflexivity.
    + unfold Binary64.pow_rn. rewrite Hsq.
      destruct (is_infinity (x * x)) eqn:Ho; [| reflexivity].
      rewrite (is_infinity_not_zero _ Ho). reflexivity.
Qed.

(** ** Binary64: maximum moment *)

Lemma max_moment_lookup_b64 (beam : string) (w L sq : float) :
  Binary64.pow_2 libm L = mret sq ->
  Binary64.max_moment libm beam w L =
  mret (default 0
          (({[ "Simply Supported" := w * sq / 8;
               "Fixed End" := w * sq / 12;
               "Cantilever" := w * sq / 2;
               "Overhang" := w * sq / 10 ]} : gmap string float) !! beam)).
Proof.
  intros H. unfold Binary64.max_moment.
  rewrite H, !bind_ret.
  rewrite !truediv_nonzero_b64 by reflexivity. reflexivity.
Qed.

Lemma max_moment_raises_b64 (beam : string) (w L : float) (e : exn) :
  Binary64.pow_2 libm L = raise e -> Binary64.max_moment libm beam w L = raise e.
Proof. intros H. unfold Binary64.max_moment. rewrite H. reflexivity. Qed.

Lemma max_moment_variant_b64 (v : BeamVariant) (w L sq : float) :
  Binary64.pow_2 libm L = mret sq ->
  Binary64.max_moment libm (variant_name v) w L = mret (Binary64.Mu_max v w sq).
Proof.
  intros H. rewrite (max_moment_lookup_b64 _ _ _ _ H). f_equal.
  destruct v; cbn [variant_name Binary64.Mu_max];
    repeat (rewrite lookup_insert_ne by discriminate);
    first [rewrite lookup_insert_eq | rewrite lookup_singleton_eq]; reflexivity.
Qed.

Lemma max_moment_unknown_b64 (beam : string) (w L sq : float) :
  beam ∉ beam_types -> Binary64.pow_2 libm L = mret sq ->
  Binary64.max_moment libm beam w L = mret 0.
Proof.
  intros Hb H. apply not_in_beam_types in Hb as (H1 & H2 & H3 & H4).
  rewrite (max_moment_lookup_b64 _ _ _ _ H). f_equal.
  rewrite !lookup_insert_ne by congruence.
  rewrite lookup_singleton_ne by congruence. reflexivity.
Qed.

(** ** Binary64: flexural and shear design *)

Lemma flexural_design_returns_b64 (beam : string) (w L b d fc fy Mu : float) :
  Binary64.max_moment libm beam w L = mret Mu ->
  (Binary64.steel_divisor fy d =? 0) = false ->
  Binary64.flexural_design libm beam w L b d fc fy =
  mret (Binary64.round_2 Mu,
        Binary64.round_2 (Mu * 1e6 / Binary64.steel_divisor fy d)).
Proof.
  intros HMu Hden. unfold Binary64.flexural_design.
  rewrite HMu, bind_ret.
  change (0.9 * fy * d * 0.9) with (Binary64.steel_divisor fy d).
  rewrite truediv_nonzero_b64 by exact Hden. reflexivity.
Qed.

Lemma flexural_design_zero_divisor_b64 (beam : string) (w L b d fc fy Mu : float) :
  Binary64.max_moment libm beam w L = mret Mu ->
  (Binary64.steel_divisor fy d =? 0) = true ->
  Binary64.flexural_design libm beam w L b d fc fy = raise ZeroDivisionError.
Proof.
  intros HMu Hden. unfold Binary64.flexural_design.
  rewrite HMu, bind_ret.
  change (0.9 * fy * d * 0.9) with (Binary64.steel_divisor fy d).
  rewrite truediv_zero_b64 by exact Hden. reflexivity.
Qed.

Lemma flexural_design_overflow_b64 (beam : string) (w L b d fc fy : float) (e : exn) :
  Binary64.pow_2 libm L = raise e ->
  Binary64.flexural_design libm beam w L b d fc fy = raise e.
Proof.
  intros H. unfold Binary64.flexural_design.
  rewrite (max_moment_raises_b64 _ _ _ _ H). reflexivity.
Qed.


Lemma shear_design_raises_b64 (w L b d fc : float) :
  (fc <? 0) = true -> Binary64.shear_design w L b d fc = raise ValueError.
Proof.
  intros Hfc. unfold Binary64.shear_design.
  rewrite truediv_nonzero_b64, bind_ret by reflexivity.
  rewrite math_sqrt_negative_b64 by exact Hfc. reflexivity.
Qed.

(** ** Binary64: values the program returns *)

(** A steel area just above 0.005 is returned as 0.01. *)
Example flexural_design_small_area :
  Binary64.flexural_design Binary64.pow_rn "Simply Supported" 324 1 300 1e5 30 1e5 =
  mret (40.5, 0.01).
Proof. vm_compute. reflexivity. Qed.

(** Ties go to the even hundredth, and the sign of a zero is kept. *)
Example round_2_values :
  Binary64.round_2 0.125 = 0.12 /\ Binary64.round_2 0.375 = 0.38 /\
  Binary64.round_2 2.675 = 2.67 /\ Binary64.round_2 (-0.001) = -0 /\
  Binary64.round_2 1e300 = 1e300 /\ Binary64.round_2 nan = nan.
Proof. repeat split; vm_compute; reflexivity. Qed.

End Binary64Facts.

(** * The claims *)

(** ** The design functions, in binary64 *)

Section Binary64Claims.

Local Open Scope float_scope.

(** C1, as the code has it.  For every load [w] and every span [L] whose
    square [L**2] is computed without overflow, [max_moment] returns exactly
    [w*L^2/8] for "Simply Supported", [w*L^2/12] for "Fixed End", [w*L^2/2]
    for "Cantilever" and [w*L^2/10] for "Overhang", evaluated in binary64 as
    written; when [L**2] raises, [max_moment] raises the same exception,
    which is [OverflowError].  With [w = 30] and [L = 20], where [L**2] is
    400, the values are 1500, 1000, 6000 and 1200. *)
Theorem max_moment_closed_form_b64 (libm : float -> float * bool) :
  (forall w L sq : float,
      Binary64.pow_2 libm L = mret sq ->
      Binary64.max_moment libm "Simply Supported" w L = mret (w * sq / 8) /\
      Binary64.max_moment libm "Fixed End" w L = mret (w * sq / 12) /\
      Binary64.max_moment libm "Cantilever" w L = mret (w * sq / 2) /\
      Binary64.max_moment libm "Overhang" w L = mret (w * sq / 10)) /\
  (forall (beam : string) (w L : float) (e : exn),
      Binary64.pow_2 libm L = raise e ->
      Binary64.max_moment libm beam w L = raise e /\ e = OverflowError) /\
  (Binary64.pow_2 libm 20 = mret 400 ->
   Binary64.max_moment libm "Simply Supported" 30 20 = mret 1500 /\
   Binary64.max_moment libm "Fixed End" 30 20 = mret 1000 /\
   Binary64.max_moment libm "Cantilever" 30 20 = mret 6000 /\
   Binary64.max_moment libm "Overhang" 30 20 = mret 1200).
Proof.
  split; [| split].
  - intros w L sq H. repeat split.
    + exact (max_moment_variant_b64 libm SimplySupported w L sq H).
    + exact (max_moment_variant_b64 libm FixedEnd w L sq H).
    + exact (max_moment_variant_b64 libm Cantilever w L sq H).
    + exact (max_moment_variant_b64 libm Overhang w L sq H).
  - intros beam w L e He. split; [exact (max_moment_raises_b64 libm beam w L e He) |].
    exact (pow_2_raises libm L e He).
  - intros H.
    split; [exact (max_moment_variant_b64 libm SimplySupported 30 20 400 H) |].
    split; [exact (max_moment_variant_b64 libm FixedEnd 30 20 400 H) |].
    split; [exact (max_moment_variant_b64 libm Cantilever 30 20 400 H) |].
    exact (max_moment_variant_b64 libm Overhang 30 20 400 H).
Qed.

Lemma max_moment_closed_form_b64_witness :
  Binary64.pow_2 Binary64.pow_rn 20 = mret 400 /\
  Binary64.max_moment Binary64.pow_rn "Fixed End" 30 20 = mret (30 * 400 / 12) /\
  Binary64.max_moment Binary64.pow_rn "Fixed End" 30 20 = mret 1000 /\
  Binary64.pow_2 Binary64.pow_rn 1e200 = raise OverflowError /\
  Binary64.max_moment Binary64.pow_rn "Fixed End" 30 1e200 = raise OverflowError.
Proof.
  assert (H : Binary64.pow_2 Binary64.pow_rn 20 = mret 400) by reflexivity.
  assert (O : Binary64.pow_2 Binary64.pow_rn 1e200 = raise OverflowError)
    by reflexivity.
  destruct (max_moment_closed_form_b64 Binary64.pow_rn) as (T & R & V).
  split; [exact H |]. split; [exact (proj1 (proj2 (T 30 20 400 H))) |].
  split; [exact (proj1 (proj2 (V H))) |].
  split; [exact O |]. exact (proj1 (R "Fixed End" 30 1e200 OverflowError O)).
Defined.

(** C1, as stated, has [max_moment] return for every span: for the finite
    span [L = 1e200], whose square the C library returns as an infinity, it
    raises [OverflowError]. *)
Lemma max_moment_overflows :
  is_finite 30 = true /\ is_finite 1e200 = true /\
  (forall libm : float -> float * bool,
      is_infinity (fst (libm 1e200)) = true ->
      Binary64.max_moment libm "Simply Supported" 30 1e200 = raise OverflowError) /\
  is_infinity (fst (Binary64.pow_rn 1e200)) = true /\
  Binary64.max_moment Binary64.pow_rn "Simply Supported" 30 1e200 =
  raise OverflowError.
Proof.
  split; [reflexivity |]. split; [reflexivity |]. split; [| split; reflexivity].
  intros libm H. apply max_moment_raises_b64.
  destruct (libm 1e200) as [ix erange] eqn:E.
  exact (pow_2_infinite libm 1e200 ix erange eq_refl eq_refl eq_refl eq_refl E H).
Qed.






(** C6, as the code has it.  The design computation fails, with one of
    Python's built-in exceptions, whenever [fc < 0], whenever [d = 0] and
    [fy] is finite, and whenever [fy = 0] and [d] is finite (a zero divisor
    raises [ZeroDivisionError], unless [L**2] has raised [OverflowError]
    before).  In particular, with [L = 20], where [L**2] is 400, it raises
    [ValueError] for [fc = -5] and [ZeroDivisionError] for [d = 0] and for
    [fy = 0], the other inputs being those of the worked example. *)
Theorem calculate_design_failures_b64 (libm : float -> float * bool)
    (beam : string) (w L b d fc fy : float) :
  ((fc <? 0) = true ->
   exists e : exn, Binary64.calculate_design libm beam w L b d fc fy = raise e) /\
  ((d =? 0) = true -> is_finite fy = true ->
   exists e : exn,
     Binary64.calculate_design libm beam w L b d fc fy = raise e /\
     (e = ZeroDivisionError \/ e = OverflowError)) /\
  ((fy =? 0) = true -> is_finite d = true ->
   exists e : exn,
     Binary64.calculate_design libm beam w L b d fc fy = raise e /\
     (e = ZeroDivisionError \/ e = OverflowError)) /\
  (Binary64.pow_2 libm 20 = mret 400 ->
   Binary64.calculate_design libm "Simply Supported" 30 20 300 500 (-5) 420 =
     raise ValueError /\
   Binary64.calculate_design libm "Simply Supported" 30 20 300 0 30 420 =
     raise ZeroDivisionError /\
   Binary64.calculate_design libm "Simply Supported" 30 20 300 500 30 0 =
     raise ZeroDivisionError).
Proof.
  assert (Z : (Binary64.steel_divisor fy d =? 0) = true ->
              exists e : exn,
                Binary64.calculate_design libm beam w L b d fc fy = raise e /\
                (e = ZeroDivisionError \/ e = OverflowError)).
  { intros Hden. unfold Binary64.calculate_design.
    destruct (Binary64.pow_2 libm L) as [e | sq] eqn:Hsq.
    - exists e. rewrite (flexural_design_overflow_b64 libm _ _ _ _ _ _ _ _ Hsq).
      split; [reflexivity |]. right. exact (pow_2_raises libm L e Hsq).
    - exists ZeroDivisionError.
      rewrite (flexural_design_zero_divisor_b64 libm _ _ _ b d fc fy _
                 (max_moment_lookup_b64 libm beam w L sq Hsq) Hden).
      split; [reflexivity | left; reflexivity]. }
  split; [| split; [| split]].
  - intros Hfc. unfold Binary64.calculate_design.
    destruct (Binary64.flexural_design libm beam w L b d fc fy) as [e | [Mu As]].
    + exists e. reflexivity.
    + exists ValueError. change (inr (Mu, As)) with (mret (Mu, As) : Py (float * float)).
      rewrite bind_ret, shear_design_raises_b64 by exact Hfc. reflexivity.
  - intros Hd Hfy. apply Z, steel_divisor_zero. left. split; assumption.
  - intros Hfy Hd. apply Z, steel_divisor_zero. right. split; assumption.
  - intros H.
    pose proof (max_moment_variant_b64 libm SimplySupported 30 20 400 H) as HMu.
    cbn [variant_name] in HMu. unfold Binary64.calculate_design.
    split; [| split].
    + rewrite (flexural_design_returns_b64 libm _ _ _ 300 500 (-5) 420 _ HMu)
        by reflexivity.
      rewrite bind_ret, shear_design_raises_b64 by reflexivity. reflexivity.
    + rewrite (flexural_design_zero_divisor_b64 libm _ _ _ 300 0 30 420 _ HMu)
        by reflexivity.
      reflexivity.
    + rewrite (flexural_design_zero_divisor_b64 libm _ _ _ 300 500 30 0 _ HMu)
        by reflexivity.
      reflexivity.
Qed.

Lemma calculate_design_failures_b64_witness :
  (-5 <? 0) = true /\ (0 =? 0) = true /\ is_finite 420 = true /\
  (exists e : exn,
      Binary64.calculate_design Binary64.pow_rn "Fixed End" 30 20 300 500 (-5) 420 = raise e) /\
  (exists e : exn,
      Binary64.calculate_design Binary64.pow_rn "Fixed End" 30 20 300 0 30 420 = raise e /\
      (e = ZeroDivisionError \/ e = OverflowError)).
Proof.
  assert (H1 : (-5 <? 0) = true) by reflexivity.
  assert (H2 : (0 =? 0) = true) by reflexivity.
  assert (H3 : is_finite 420 = true) by reflexivity.
  split; [exact H1 |]. split; [exact H2 |]. split; [exact H3 |]. split.
  - exact (proj1 (calculate_design_failures_b64 Binary64.pow_rn "Fixed End" 30 20 300 500 (-5) 420) H1).
  - exact (proj1 (proj2 (calculate_design_failures_b64 Binary64.pow_rn "Fixed End" 30 20 300 0 30 420))
             H2 H3).
Defined.

(** C6, as stated, has the computation fail whenever [d <= 0]: with
    [d = -500], the other inputs being those of the worked example, it
    returns a result, with a negative steel area and a negative capacity.
    Even [d = 0] is accepted when [fy] is infinite: the divisor is then NaN,
    not zero, and so is the steel area returned. *)
Lemma negative_depth_is_accepted_b64 :
  (-500 <=? 0) = true /\
  (forall libm : float -> float * bool,
      Binary64.pow_2 libm 20 = mret 400 ->
      Binary64.calculate_design libm "Simply Supported" 30 20 300 (-500) 30 420 =
      mret (Binary64.mkDesignResult 1500 (-8818.34) 300 (-104.75)
              "STIRRUPS REQUIRED")) /\
  Binary64.calculate_design Binary64.pow_rn "Simply Supported" 30 20 300 (-500) 30 420 =
  mret (Binary64.mkDesignResult 1500 (-8818.34) 300 (-104.75) "STIRRUPS REQUIRED") /\
  Binary64.calculate_design Binary64.pow_rn "Simply Supported" 30 20 300 0 30 infinity =
  mret (Binary64.mkDesignResult 1500 nan 300 0 "STIRRUPS REQUIRED").
Proof.
  split; [reflexivity |].
  split; [| split; vm_compute; reflexivity].
  intros libm H.
  pose proof (max_moment_variant_b64 libm SimplySupported 30 20 400 H) as HMu.
  cbn [variant_name] in HMu. unfold Binary64.calculate_design.
  rewrite (flexural_design_returns_b64 libm _ _ _ 300 (-500) 30 420 _ HMu)
    by reflexivity.
  rewrite bind_ret. vm_compute. reflexivity.
Qed.

(** C8, as the code has it.  For every string outside the four recognized
    names: [max_moment] returns 0 for every [w] and every [L] whose square is
    computed without overflow (the dictionary is built before the lookup, so
    an overflowing [L**2] raises [OverflowError] here too); and for every
    [w], [L] the envelope that [draw_diagrams] plots, without raising, is
    the Overhang one, [V(x) = w*(L/2 - x)] and [M(x) = w*x*(L - x)/10] at
    the 100 samples. *)
Theorem unknown_variant_degrades_b64 (libm : float -> float * bool) (beam : string) :
  beam ∉ beam_types ->
  (forall w L sq : float,
      Binary64.pow_2 libm L = mret sq -> Binary64.max_moment libm beam w L = mret 0) /\
  (forall (w L : float) (e : exn),
      Binary64.pow_2 libm L = raise e ->
      Binary64.max_moment libm beam w L = raise e /\ e = OverflowError) /\
  (forall w L : R,
      exists fig : Figure,
        draw_diagrams beam w L = mret fig /\
        plots fig (linspace 0%R L 100) (V_at Overhang w L) (M_at Overhang w L)).
Proof.
  intros H. split; [| split].
  - intros w L sq Hsq. exact (max_moment_unknown_b64 libm beam w L sq H Hsq).
  - intros w L e He. split; [exact (max_moment_raises_b64 libm beam w L e He) |].
    exact (pow_2_raises libm L e He).
  - intros w L. eexists. split; [| apply diagram_figure_plots].
    rewrite draw_diagrams_returns, plotted_variant_unknown by exact H. reflexivity.
Qed.

Lemma unknown_variant_degrades_b64_witness :
  ("Continuous" ∉ beam_types) /\
  Binary64.pow_2 Binary64.pow_rn 20 = mret 400 /\
  Binary64.max_moment Binary64.pow_rn "Continuous" 30 20 = mret 0 /\
  exists fig : Figure,
    draw_diagrams "Continuous" 30%R 20%R = mret fig /\
    plots fig (linspace 0%R 20%R 100)
          (V_at Overhang 30%R 20%R) (M_at Overhang 30%R 20%R).
Proof.
  assert (H : Binary64.pow_2 Binary64.pow_rn 20 = mret 400) by reflexivity.
  destruct (unknown_variant_degrades_b64 Binary64.pow_rn "Continuous" continuous_not_a_beam_type)
    as (A & _ & C).
  split; [exact continuous_not_a_beam_type |]. split; [exact H |].
  split; [exact (A 30 20 400 H) | exact (C 30%R 20%R)].
Defined.

End Binary64Claims.

(** ** The worked example and the diagrams *)

(** C4, as the code has it.  For "Simply Supported", [w = 30], [L = 20],
    [b = 300], [d = 500], [fc = 30], [fy = 420] the design computation
    returns [Mu = 1500.00], [As = 8818.34], [Vu = 300.00],
    [phi*Vc = 104.75] and the status StirrupsRequired. *)
Theorem worked_example :
  calculate_design (variant_name SimplySupported) 30 20 300 500 30 420 =
  mret (mkDesignResult 1500 8818.34 300 104.75 (status_text StirrupsRequired)).
Proof. exact example_design. Qed.

(** C4, as stated, has [phi*Vc = 104.77]: the code returns 104.75. *)
Lemma worked_example_phiVc_is_not_104_77 :
  exists r : DesignResult,
    calculate_design "Simply Supported" 30 20 300 500 30 420 = mret r /\
    res_Mu r = 1500 /\ res_As r = 8818.34 /\ res_Vu r = 300 /\
    res_status r = "STIRRUPS REQUIRED" /\
    res_phiVc r = 104.75 /\ res_phiVc r <> 104.77.
Proof.
  eexists. split; [exact example_design |]. cbn. repeat split. lra.
Qed.

(** C5. For every [w] and every [L > 0], [draw_diagrams] evaluates the
    envelope at exactly 100 evenly spaced points of [[0, L]] (the [i]-th is
    [i*L/99], from 0 to [L]), with the distribution functions of the
    specification's table: [V_at] and [M_at] for each of the four variants. *)
Theorem draw_diagrams_envelope (v : BeamVariant) (w L : R) :
  0 < L ->
  exists (fig : Figure) (xs : list R),
    draw_diagrams (variant_name v) w L = mret fig /\
    plots fig xs (V_at v w L) (M_at v w L) /\
    length xs = 100%nat /\
    (forall i : nat, (i < 100)%nat -> xs !! i = Some (INR i * L / 99)) /\
    xs !! 0%nat = Some 0 /\ xs !! 99%nat = Some L /\
    (forall x : R, x ∈ xs -> 0 <= x <= L).
Proof.
  intros HL. exists (diagram_figure (linspace 0 L 100) (V_at v w L) (M_at v w L)).
  exists (linspace 0 L 100).
  split; [apply draw_diagrams_variant |].
  split; [apply diagram_figure_plots |].
  split; [apply length_linspace; lia |].
  split; [| split; [| split]].
  - intros i Hi. rewrite linspace_100_lookup, sample_point_99 by assumption. reflexivity.
  - rewrite linspace_100_lookup, sample_point_first by lia. reflexivity.
  - rewrite linspace_100_lookup, sample_point_last by lia. reflexivity.
  - intros x Hx. apply linspace_100_elem in Hx as (i & Hi & ->).
    apply sample_point_range; [lra | assumption].
Qed.

Lemma draw_diagrams_envelope_witness :
  0 < 20 /\
  exists (fig : Figure) (xs : list R),
    draw_diagrams (variant_name FixedEnd) 30 20 = mret fig /\
    plots fig xs (V_at FixedEnd 30 20) (M_at FixedEnd 30 20) /\
    length xs = 100%nat /\
    (forall i : nat, (i < 100)%nat -> xs !! i = Some (INR i * 20 / 99)) /\
    xs !! 0%nat = Some 0 /\ xs !! 99%nat = Some 20 /\
    (forall x : R, x ∈ xs -> 0 <= x <= 20).
Proof.
  split; [lra |]. apply (draw_diagrams_envelope FixedEnd 30 20). lra.
Defined.

(** C7, as the code has it.  For every span [L <= 0] (in particular
    [L = 0]) [draw_diagrams] does not fail: it returns a figure whose two
    curves are sampled at the 100 points [i*L/99], which run from 0 down to
    [L] and all equal 0 when [L = 0]. *)
Theorem draw_diagrams_nonpositive_span (beam : string) (w L : R) :
  L <= 0 ->
  exists (fig : Figure) (xs : list R),
    draw_diagrams beam w L = mret fig /\
    plots fig xs (V_at (plotted_variant beam) w L) (M_at (plotted_variant beam) w L) /\
    length xs = 100%nat /\
    (forall i : nat, (i < 100)%nat -> xs !! i = Some (INR i * L / 99)) /\
    (forall x : R, x ∈ xs -> L <= x <= 0) /\
    (L = 0 -> xs = replicate 100 0).
Proof.
  intros HL.
  exists (diagram_figure (linspace 0 L 100)
            (V_at (plotted_variant beam) w L) (M_at (plotted_variant beam) w L)).
  exists (linspace 0 L 100).
  split; [apply draw_diagrams_returns |].
  split; [apply diagram_figure_plots |].
  split; [apply length_linspace; lia |].
  split; [| split].
  - intros i Hi. rewrite linspace_100_lookup, sample_point_99 by assumption. reflexivity.
  - intros x Hx. apply linspace_100_elem in Hx as (i & Hi & ->).
    pose proof (sample_point_range (- L) i ltac:(lra) Hi) as B.
    rewrite sample_point_99 in *. lra.
  - intros ->. apply linspace_zero_span.
Qed.

Lemma draw_diagrams_nonpositive_span_witness :
  -20 <= 0 /\
  exists (fig : Figure) (xs : list R),
    draw_diagrams "Cantilever" 30 (-20) = mret fig /\
    plots fig xs (V_at (plotted_variant "Cantilever") 30 (-20))
          (M_at (plotted_variant "Cantilever") 30 (-20)) /\
    length xs = 100%nat /\
    (forall i : nat, (i < 100)%nat -> xs !! i = Some (INR i * -20 / 99)) /\
    (forall x : R, x ∈ xs -> -20 <= x <= 0) /\
    (-20 = 0 -> xs = replicate 100 0).
Proof.
  split; [lra |]. apply (draw_diagrams_nonpositive_span "Cantilever" 30 (-20)). lra.
Defined.

(** C7, as stated, has [draw_diagrams] fail for [L = 0]: it returns the
    figure of two flat curves over 100 coinciding samples. *)
Lemma zero_span_is_plotted :
  0 <= 0 /\
  draw_diagrams "Simply Supported" 30 0 =
  mret (diagram_figure (replicate 100 0) (fun _ => 0) (fun _ => 0)).
Proof.
  split; [lra |].
  rewrite (draw_diagrams_variant SimplySupported), linspace_zero_span.
  unfold diagram_figure. rewrite !fmap_replicate. cbn [V_at M_at].
  replace (30 * (0 / 2 - 0)) with 0 by lra.
  replace (30 * 0 * (0 - 0) / 2) with 0 by lra. reflexivity.
Qed.

(** C8, as stated, has a zero-valued envelope for an unknown variant: for
    "Continuous" with [w = 30], [L = 20] the plotted shear at [x = 0] is 300. *)
Lemma unknown_variant_envelope_is_not_zero :
  ("Continuous" ∉ beam_types) /\
  exists ax1 ax2 : Axes,
    draw_diagrams "Continuous" 30 20 = mret (mkFigure [ax1; ax2]) /\
    ax_xdata ax1 !! 0%nat = Some 0 /\
    ax_ydata ax1 !! 0%nat = Some 300 /\
    300 <> 0.
Proof.
  pose proof continuous_not_a_beam_type as H.
  split; [exact H |].
  rewrite draw_diagrams_returns, plotted_variant_unknown by exact H.
  unfold diagram_figure. eexists _, _. split; [reflexivity |]. cbn [ax_xdata ax_ydata].
  rewrite list_lookup_fmap, linspace_100_lookup, sample_point_first by lia.
  cbn [fmap option_fmap option_map V_at].
  repeat split; [f_equal; lra | lra].
Qed.



(** C10. For every [w], [L] and every string that is not one of the four
    recognized names, [draw_diagrams] still returns a figure, computed with
    the Overhang formulas [V(x) = w*(L/2 - x)] and [M(x) = w*x*(L - x)/10]
    at the 100 samples: the dispatch falls through to the final [else], so
    the result is the one for "Overhang", not an error. *)
Theorem draw_diagrams_unrecognized (beam : string) (w L : R) :
  beam ∉ beam_types ->
  exists fig : Figure,
    draw_diagrams beam w L = mret fig /\
    draw_diagrams "Overhang" w L = mret fig /\
    plots fig (linspace 0 L 100)
          (fun x => w * (L / 2 - x)) (fun x => w * x * (L - x) / 10) /\
    length (linspace 0 L 100) = 100%nat.
Proof.
  intros H.
  exists (diagram_figure (linspace 0 L 100) (V_at Overhang w L) (M_at Overhang w L)).
  split; [| split; [| split]].
  - rewrite draw_diagrams_returns, plotted_variant_unknown by exact H. reflexivity.
  - exact (draw_diagrams_variant Overhang w L).
  - apply diagram_figure_plots.
  - apply length_linspace. lia.
Qed.

Lemma draw_diagrams_unrecognized_witness :
  ("Continuous" ∉ beam_types) /\
  exists fig : Figure,
    draw_diagrams "Continuous" 30 20 = mret fig /\
    draw_diagrams "Overhang" 30 20 = mret fig /\
    plots fig (linspace 0 20 100)
          (fun x => 30 * (20 / 2 - x)) (fun x => 30 * x * (20 - x) / 10) /\
    length (linspace 0 20 100) = 100%nat.
Proof.
  split; [exact continuous_not_a_beam_type |].
  apply (draw_diagrams_unrecognized "Continuous" 30 20 continuous_not_a_beam_type).
Defined.

(** * Further properties of the code *)

(** ** Rounding is monotone *)

Lemma round_half_even_le (x y : R) :
  x <= y -> (round_half_even x <= round_half_even y)%Z.
Proof.
  intros Hxy.
  destruct (Z.le_gt_cases (round_half_even x) (round_half_even y)) as [H | H];
    [exact H | exfalso].
  pose proof (round_half_even_bound x) as Bx.
  pose proof (round_half_even_bound y) as By.
  assert (Hz : (round_half_even y + 1 <= round_half_even x)%Z) by lia.
  apply IZR_le in Hz. rewrite plus_IZR in Hz.
  assert (E : x = y) by lra. subst y. lia.
Qed.

Lemma round_le (x y : R) (ndigits : nat) :
  x <= y -> round x ndigits <= round y ndigits.
Proof.
  intros Hxy. unfold round.
  assert (P : 0 < 10 ^ ndigits) by (apply pow_lt; lra).
  apply Rmult_le_compat_r; [apply Rlt_le, Rinv_0_lt_compat; exact P |].
  apply IZR_le, round_half_even_le. nra.
Qed.

Lemma round_2_zero : round 0 2 = 0.
Proof. exact (round_2_integer 0). Qed.

(** ** Beam drawing *)

Lemma draw_beam_returns (beam : string) : draw_beam beam = mret (beam_figure beam).
Proof.
  unfold draw_beam, beam_figure, beam_supports.
  repeat case_decide; rewrite ?truediv_nonzero, ?bind_ret by lra; reflexivity.
Qed.

Lemma beam_supports_unknown (beam : string) :
  beam ∉ beam_types -> beam_supports beam = [].
Proof.
  intros H. apply not_in_beam_types in H as (H1 & H2 & H3 & H4).
  unfold beam_supports. rewrite !decide_False by assumption. reflexivity.
Qed.

Lemma beam_supports_attached (beam : string) (a : Artist) :
  a ∈ beam_supports beam -> attached a.
Proof.
  unfold beam_supports. intros H.
  repeat case_decide;
    repeat (apply elem_of_cons in H as [-> | H]);
    try (apply elem_of_nil in H; contradiction);
    cbn [attached]; repeat split; try lra; try lia; try (left; lra); try (right; lra).
Qed.

Lemma length_append (s t : string) :
  String.length (s +:+ t) = (String.length s + String.length t)%nat.
Proof.
  induction s as [| a s IH]; [reflexivity |].
  change (String a s +:+ t) with (String a (s +:+ t)).
  cbn [String.length Nat.add]. rewrite IH. reflexivity.
Qed.

(** Appending the same suffix to different strings gives different strings. *)
Lemma append_inj_l (s1 s2 t : string) : s1 +:+ t = s2 +:+ t -> s1 = s2.
Proof.
  revert s2. induction s1 as [| a s1 IH]; intros [| c s2] H.
  - reflexivity.
  - apply (f_equal String.length) in H. rewrite !length_append in H.
    cbn [String.length] in H. lia.
  - apply (f_equal String.length) in H. rewrite !length_append in H.
    cbn [String.length] in H. lia.
  - change (String a (s1 +:+ t) = String c (s2 +:+ t)) in H.
    injection H as -> H. f_equal. apply IH. exact H.
Qed.

(** X1. For each of the four variants [draw_beam] returns a figure whose
    support symbols match the variant: two point markers and no block for
    "Simply Supported" and "Overhang", two blocks and no marker for
    "Fixed End", one block and no marker for "Cantilever"; with the bar and
    the title that makes four artists, three for "Cantilever". *)
Theorem draw_beam_support_symbols (v : BeamVariant) :
  exists fig : BeamFigure,
    draw_beam (variant_name v) = mret fig /\
    count_artists is_marker fig =
      match v with SimplySupported | Overhang => 2%nat | _ => 0%nat end /\
    count_artists is_rectangle fig =
      match v with FixedEnd => 2%nat | Cantilever => 1%nat | _ => 0%nat end /\
    length (bf_artists fig) =
      match v with Cantilever => 3%nat | _ => 4%nat end.
Proof.
  exists (beam_figure (variant_name v)).
  split; [apply draw_beam_returns |].
  destruct v; repeat split.
Qed.

(** X2. A string that is none of the four names is drawn without raising
    and without any support: the figure holds the bar and the title only,
    although [draw_diagrams] plots the same string as an "Overhang" beam,
    which [draw_beam] draws with two markers. *)
Theorem draw_beam_unknown_has_no_support (beam : string) (w L : R) :
  beam ∉ beam_types ->
  exists (fig overhang : BeamFigure),
    draw_beam beam = mret fig /\
    bf_artists fig =
      [Line2D [1; 9] [2; 2] 8 2; Text 5 2.6 (beam +:+ " Beam") "center" 11] /\
    draw_beam "Overhang" = mret overhang /\
    count_artists is_marker overhang = 2%nat /\
    draw_diagrams beam w L = draw_diagrams "Overhang" w L.
Proof.
  intros H. exists (beam_figure beam), (beam_figure "Overhang").
  split; [apply draw_beam_returns |].
  split; [unfold beam_figure; rewrite beam_supports_unknown by exact H; reflexivity |].
  split; [apply draw_beam_returns |].
  split; [reflexivity |].
  rewrite !draw_diagrams_returns, plotted_variant_unknown by exact H. reflexivity.
Qed.

Lemma draw_beam_unknown_has_no_support_witness :
  ("Continuous" ∉ beam_types) /\
  exists (fig overhang : BeamFigure),
    draw_beam "Continuous" = mret fig /\
    bf_artists fig =
      [Line2D [1; 9] [2; 2] 8 2; Text 5 2.6 ("Continuous" +:+ " Beam") "center" 11] /\
    draw_beam "Overhang" = mret overhang /\
    count_artists is_marker overhang = 2%nat /\
    draw_diagrams "Continuous" 30 20 = draw_diagrams "Overhang" 30 20.
Proof.
  split; [exact continuous_not_a_beam_type |].
  apply (draw_beam_unknown_has_no_support "Continuous" 30 20 continuous_not_a_beam_type).
Defined.

(** X3. Whatever the string, every support symbol that [draw_beam] draws is
    attached to the bar: a marker lies under the bar within its span, a
    block abuts the left or the right end of the bar and is centred on its
    axis, and both are drawn above the bar in z-order. *)
Theorem draw_beam_supports_attached (beam : string) :
  exists fig : BeamFigure,
    draw_beam beam = mret fig /\
    forall a : Artist, a ∈ bf_artists fig -> attached a.
Proof.
  exists (beam_figure beam). split; [apply draw_beam_returns |].
  intros a Ha. unfold beam_figure in Ha. cbn [bf_artists] in Ha.
  apply elem_of_cons in Ha as [-> | Ha]; [exact I |].
  apply elem_of_app in Ha as [Ha | Ha]; [exact (beam_supports_attached beam a Ha) |].
  apply list_elem_of_singleton in Ha as ->. exact I.
Qed.

(** X4. Whatever the string, everything [draw_beam] draws is anchored inside
    the axes limits it sets, [0..10] by [0..3]: the ends of the bar, the
    markers, both corners of each block and the title. *)
Theorem draw_beam_within_limits (beam : string) :
  exists fig : BeamFigure,
    draw_beam beam = mret fig /\
    forall (a : Artist) (x y : R),
      a ∈ bf_artists fig -> (x, y) ∈ artist_points a ->
      (bf_xlim fig).1 <= x <= (bf_xlim fig).2 /\
      (bf_ylim fig).1 <= y <= (bf_ylim fig).2.
Proof.
  exists (beam_figure beam). split; [apply draw_beam_returns |].
  intros a x y Ha Hp. unfold beam_figure in *. cbn [bf_artists bf_xlim bf_ylim fst snd] in *.
  assert (Hs : forall a', a' ∈ beam_supports beam ->
                 (x, y) ∈ artist_points a' -> 0 <= x <= 10 /\ 0 <= y <= 3).
  { clear. unfold beam_supports. intros a' H Hp.
    repeat case_decide;
      repeat (apply elem_of_cons in H as [-> | H]);
      try (apply elem_of_nil in H; contradiction);
      cbn [artist_points] in Hp;
      repeat (apply elem_of_cons in Hp as [[= -> ->] | Hp]);
      try (apply elem_of_nil in Hp; contradiction); lra. }
  apply elem_of_cons in Ha as [-> | Ha].
  - cbn [artist_points zip zip_with] in Hp.
    repeat (apply elem_of_cons in Hp as [[= -> ->] | Hp]);
      try (apply elem_of_nil in Hp; contradiction); lra.
  - apply elem_of_app in Ha as [Ha | Ha]; [exact (Hs a Ha Hp) |].
    apply list_elem_of_singleton in Ha as ->. cbn [artist_points] in Hp.
    apply list_elem_of_singleton in Hp as [= -> ->]. lra.
Qed.

(** X5. The title carries the string: two different strings never give the
    same drawing, also when neither is a known variant and the supports do
    not tell them apart. *)
Theorem draw_beam_injective (beam1 beam2 : string) :
  beam1 <> beam2 -> draw_beam beam1 <> draw_beam beam2.
Proof.
  intros Hne E. rewrite !draw_beam_returns in E.
  unfold mret, Py_ret, beam_figure in E. injection E as E.
  apply (f_equal (@last Artist)) in E. rewrite !last_snoc in E.
  injection E as E. apply append_inj_l in E. contradiction.
Qed.

Lemma draw_beam_injective_witness :
  "Beam A" <> "Beam B" /\ draw_beam "Beam A" <> draw_beam "Beam B".
Proof.
  assert (H : "Beam A" <> "Beam B") by discriminate.
  split; [exact H |]. exact (draw_beam_injective "Beam A" "Beam B" H).
Defined.

(** ** Shear and moment diagrams *)













(** ** Design results *)

(** X13. The status is decided on the unrounded values, and the returned
    values agree with it one way: whenever [shear_design] returns "SAFE", the
    returned capacity is at least the returned [Vu].  Not the other way:
    for [w = 0.002], [L = 1] and a section of zero area both returned values
    are 0 and the status is "STIRRUPS REQUIRED". *)
Theorem safe_status_and_returned_values :
  (forall w L b d fc Vu phiVc : R,
      shear_design w L b d fc = mret (Vu, phiVc, "SAFE") -> Vu <= phiVc) /\
  shear_design 0.002 1 0 0 0 = mret (0, 0, "STIRRUPS REQUIRED").
Proof.
  split.
  - intros w L b d fc Vu phiVc E.
    destruct (Rlt_dec fc 0) as [Hneg | Hpos].
    + rewrite shear_design_raises in E by exact Hneg. discriminate E.
    + rewrite shear_design_returns in E by lra.
      destruct (Rge_dec (0.75 * (0.17 * sqrt fc * b * d / 1000)) (w * L / 2))
        as [Hge | Hlt]; [| discriminate E].
      injection E as <- <-. apply round_le. lra.
  - rewrite shear_design_returns by lra. rewrite sqrt_0.
    replace (0.002 * 1 / 2) with 0.001 by lra.
    replace (0.75 * (0.17 * 0 * 0 * 0 / 1000)) with 0 by lra.
    rewrite round_2_zero.
    rewrite (round_2_to 0.001 0 0) by lra.
    destruct (Rge_dec 0 0.001); [lra | reflexivity].
Qed.

Lemma safe_status_and_returned_values_witness :
  exists Vu phiVc : R,
    shear_design 30 20 2000 2000 30 = mret (Vu, phiVc, "SAFE") /\ Vu <= phiVc.
Proof.
  assert (E : shear_design 30 20 2000 2000 30 =
              mret (round (30 * 20 / 2) 2,
                    round (0.75 * (0.17 * sqrt 30 * 2000 * 2000 / 1000)) 2, "SAFE")).
  { pose proof sqrt_30_bounds as [Hlo Hhi].
    rewrite shear_design_returns by lra.
    destruct (Rge_dec (0.75 * (0.17 * sqrt 30 * 2000 * 2000 / 1000)) (30 * 20 / 2));
      [reflexivity | lra]. }
  eexists _, _. split; [exact E |].
  exact (proj1 safe_status_and_returned_values _ _ _ _ _ _ _ E).
Defined.

(** X16. [shear_design] fails exactly when [fc < 0], always with
    [ValueError]: a zero or negative width or depth never makes it fail. *)
Theorem shear_design_failure (w L b d fc : R) :
  (shear_design w L b d fc = raise ValueError <-> fc < 0) /\
  shear_design w L b d fc <> raise ZeroDivisionError /\
  (0 <= fc -> exists r : R * R * string, shear_design w L b d fc = mret r).
Proof.
  destruct (Rlt_dec fc 0) as [Hneg | Hpos].
  - rewrite shear_design_raises by exact Hneg.
    split; [tauto |]. split; [discriminate | lra].
  - rewrite shear_design_returns by lra.
    split; [split; [discriminate | lra] |].
    split; [discriminate |]. intros _. eexists. reflexivity.
Qed.

(** X20. Whatever the string, the load and the span, each of the two axes
    of the figure of [draw_diagrams] is given 100 abscissae and 100
    ordinates: the two arrays passed to [plot] always have the same
    length. *)
Theorem draw_diagrams_lengths (beam : string) (w L : R) :
  exists fig : Figure,
    draw_diagrams beam w L = mret fig /\
    length (fig_axes fig) = 2%nat /\
    forall ax : Axes, ax ∈ fig_axes fig ->
      length (ax_xdata ax) = 100%nat /\ length (ax_ydata ax) = 100%nat.
Proof.
  eexists. split; [apply draw_diagrams_returns |].
  split; [reflexivity |].
  intros ax Hax. unfold diagram_figure in Hax. cbn [fig_axes] in Hax.
  pose proof (length_linspace 0 L 100 ltac:(lia)) as Hlen.
  repeat (apply elem_of_cons in Hax as [-> | Hax]);
    try (apply elem_of_nil in Hax; contradiction);
    cbn [ax_xdata ax_ydata]; rewrite ?length_fmap; split; exact Hlen.
Qed.

(** ** The design functions in binary64 *)

Section Binary64Further.

Local Open Scope float_scope.

(** X12. For a string that is none of the four names, when [L**2] is
    computed without overflow and the divisor [0.9*fy*d*0.9] is neither zero
    nor NaN, [flexural_design] returns a moment of 0 and a steel area that
    is a zero, whatever the load. *)
Theorem flexural_design_unknown_b64 (libm : float -> float * bool) (beam : string) (w L b d fc fy sq : float) :
  beam ∉ beam_types ->
  Binary64.pow_2 libm L = mret sq ->
  (0.9 * fy * d * 0.9 =? 0) = false ->
  is_nan (0.9 * fy * d * 0.9) = false ->
  exists As : float,
    Binary64.flexural_design libm beam w L b d fc fy = mret (0, As) /\
    (As =? 0) = true.
Proof.
  intros Hb Hsq Hden Hnan.
  pose proof (max_moment_unknown_b64 libm beam w L sq Hb Hsq) as HMu.
  rewrite (flexural_design_returns_b64 libm _ _ _ b d fc fy _ HMu Hden).
  change (0 * 1e6) with 0. change (Binary64.round_2 0) with 0.
  change (Binary64.steel_divisor fy d) with (0.9 * fy * d * 0.9).
  set (den := 0.9 * fy * d * 0.9) in *.
  assert (Hq : exists s : bool, Prim2SF (0 / den) = S754_zero s).
  { rewrite div_spec. change (Prim2SF 0) with (S754_zero false).
    unfold is_nan in Hnan. rewrite FloatAxioms.eqb_spec in Hnan, Hden.
    change (Prim2SF 0) with (S754_zero false) in Hden.
    destruct (Prim2SF den) as [s | s | | s m e]; cbn in *;
      try discriminate; eexists; reflexivity. }
  destruct Hq as [s Hs]. exists (0 / den). split.
  - unfold Binary64.round_2 at 1. rewrite Hs. reflexivity.
  - exact (eqb_zero_intro _ s Hs).
Qed.

Lemma flexural_design_unknown_b64_witness :
  ("Continuous" ∉ beam_types) /\
  Binary64.pow_2 Binary64.pow_rn 20 = mret 400 /\
  (0.9 * 420 * 500 * 0.9 =? 0) = false /\
  is_nan (0.9 * 420 * 500 * 0.9) = false /\
  exists As : float,
    Binary64.flexural_design Binary64.pow_rn "Continuous" 30 20 300 500 30 420 = mret (0, As) /\
    (As =? 0) = true.
Proof.
  assert (H1 : Binary64.pow_2 Binary64.pow_rn 20 = mret 400) by reflexivity.
  assert (H2 : (0.9 * 420 * 500 * 0.9 =? 0) = false) by reflexivity.
  assert (H3 : is_nan (0.9 * 420 * 500 * 0.9) = false) by reflexivity.
  split; [exact continuous_not_a_beam_type |].
  split; [exact H1 |]. split; [exact H2 |]. split; [exact H3 |].
  exact (flexural_design_unknown_b64 Binary64.pow_rn "Continuous" 30 20 300 500 30 420 400
           continuous_not_a_beam_type H1 H2 H3).
Defined.

(** X15. [flexural_design] raises [OverflowError] exactly when [L**2]
    does, [ZeroDivisionError] exactly when [L**2] is computed and the
    divisor [0.9*fy*d*0.9] is a zero (as for [d = fy = 1e-200], where it
    underflows), and never [ValueError]; neither [b] nor [fc] enters its
    result, so a negative [fc] is accepted. *)
Theorem flexural_design_failure_b64 (libm : float -> float * bool) (beam : string) (w L b d fc fy : float) :
  (Binary64.flexural_design libm beam w L b d fc fy = raise OverflowError <->
   Binary64.pow_2 libm L = raise OverflowError) /\
  (Binary64.flexural_design libm beam w L b d fc fy = raise ZeroDivisionError <->
   (exists sq : float, Binary64.pow_2 libm L = mret sq) /\
   (0.9 * fy * d * 0.9 =? 0) = true) /\
  Binary64.flexural_design libm beam w L b d fc fy <> raise ValueError /\
  (forall b' fc' : float,
      Binary64.flexural_design libm beam w L b' d fc' fy =
      Binary64.flexural_design libm beam w L b d fc fy) /\
  Binary64.flexural_design libm beam w L b 1e-200 fc 1e-200 <> mret (0, 0).
Proof.
  assert (U : forall b' fc' : float,
             Binary64.flexural_design libm beam w L b' d fc' fy =
             Binary64.flexural_design libm beam w L b d fc fy) by reflexivity.
  assert (T : Binary64.flexural_design libm beam w L b 1e-200 fc 1e-200 <> mret (0, 0)).
  { destruct (Binary64.pow_2 libm L) as [e | sq] eqn:Hsq.
    - rewrite (flexural_design_overflow_b64 libm _ _ _ _ _ _ _ _ Hsq). discriminate.
    - rewrite (flexural_design_zero_divisor_b64 libm _ _ _ b 1e-200 fc 1e-200 _
                 (max_moment_lookup_b64 libm beam w L sq Hsq)) by reflexivity.
      discriminate. }
  destruct (Binary64.pow_2 libm L) as [e | sq] eqn:Hsq.
  - pose proof (pow_2_raises libm L e Hsq) as ->.
    rewrite (flexural_design_overflow_b64 libm _ _ _ _ _ _ _ _ Hsq) in *.
    split; [tauto |]. split; [| split; [discriminate | split; [exact U | exact T]]].
    split; [discriminate |]. intros [[sq' Hsq'] _]. discriminate Hsq'.
  - pose proof (max_moment_lookup_b64 libm beam w L sq Hsq) as HMu.
    destruct (0.9 * fy * d * 0.9 =? 0) eqn:Hden.
    + rewrite (flexural_design_zero_divisor_b64 libm _ _ _ b d fc fy _ HMu Hden) in *.
      split; [split; discriminate |].
      split; [| split; [discriminate | split; [exact U | exact T]]].
      split; [intros _; split; [exists sq; reflexivity | reflexivity] | reflexivity].
    + rewrite (flexural_design_returns_b64 libm _ _ _ b d fc fy _ HMu Hden) in *.
      split; [split; discriminate |].
      split; [| split; [discriminate | split; [exact U | exact T]]].
      split; [discriminate | intros [_ ?]; discriminate].
Qed.

(** X18. [shear_design] does not see the section through its area alone:
    the product [0.17*sqrt(fc)*b*d] is taken from left to right and rounded
    at each step, so exchanging the width and the depth can change the
    capacity returned.  With [w = 30], [L = 20], [fc = 1], the section
    [(300, 100)] gives 3.83 and the section [(100, 300)] gives 3.82. *)
Theorem shear_design_not_symmetric :
  Binary64.shear_design 30 20 300 100 1 = mret (300, 3.83, "STIRRUPS REQUIRED") /\
  Binary64.shear_design 30 20 100 300 1 = mret (300, 3.82, "STIRRUPS REQUIRED") /\
  Binary64.shear_design 30 20 300 100 1 <> Binary64.shear_design 30 20 100 300 1.
Proof.
  assert (A : Binary64.shear_design 30 20 300 100 1 =
              mret (300, 3.83, "STIRRUPS REQUIRED")) by (vm_compute; reflexivity).
  assert (B : Binary64.shear_design 30 20 100 300 1 =
              mret (300, 3.82, "STIRRUPS REQUIRED")) by (vm_compute; reflexivity).
  split; [exact A |]. split; [exact B |].
  rewrite A, B. intros E.
  pose proof (f_equal (fun r : Py (float * float * string) =>
                         match r with
                         | inr (_, c, _) => c =? 3.82
                         | inl _ => false
                         end) E) as F.
  vm_compute in F. discriminate F.
Qed.

(** X21. The worked example on the program's own numbers.  For "Simply
    Supported", [w = 30], [L = 20] (where [L**2] is 400), [b = 300],
    [d = 500], [fc = 30], [fy = 420], the two calls of the button return the
    floats [1500.0], [8818.34], [300.0], [104.75] and "STIRRUPS REQUIRED". *)
Theorem worked_example_binary64 (libm : float -> float * bool) :
  Binary64.pow_2 libm 20 = mret 400 ->
  Binary64.calculate_design libm "Simply Supported" 30 20 300 500 30 420 =
  mret (Binary64.mkDesignResult 1500 8818.34 300 104.75 "STIRRUPS REQUIRED").
Proof.
  intros H.
  pose proof (max_moment_variant_b64 libm SimplySupported 30 20 400 H) as HMu.
  cbn [variant_name] in HMu. unfold Binary64.calculate_design.
  rewrite (flexural_design_returns_b64 libm _ _ _ 300 500 30 420 _ HMu)
    by reflexivity.
  rewrite bind_ret. vm_compute. reflexivity.
Qed.

Lemma worked_example_binary64_witness :
  Binary64.pow_2 Binary64.pow_rn 20 = mret 400 /\
  Binary64.calculate_design Binary64.pow_rn "Simply Supported" 30 20 300 500 30 420 =
  mret (Binary64.mkDesignResult 1500 8818.34 300 104.75 "STIRRUPS REQUIRED").
Proof.
  assert (H : Binary64.pow_2 Binary64.pow_rn 20 = mret 400) by reflexivity.
  split; [exact H |]. exact (worked_example_binary64 Binary64.pow_rn H).
Defined.

(** X22. When the C library's [pow] is correctly rounded, [max_moment] is
    settled for every finite span [L] by the float product [L*L]: if it is
    finite the variant's closed form on it is returned, and if it is
    infinite [OverflowError] is raised. *)
Theorem max_moment_correctly_rounded (v : BeamVariant) (w L : float) :
  is_finite L = true ->
  Binary64.max_moment Binary64.pow_rn (variant_name v) w L =
  if is_infinity (L * L) then raise OverflowError
  else mret (Binary64.Mu_max v w (L * L)).
Proof.
  intros HL. pose proof (pow_2_pow_rn L HL) as H.
  destruct (is_infinity (L * L)).
  - exact (max_moment_raises_b64 Binary64.pow_rn (variant_name v) w L _ H).
  - exact (max_moment_variant_b64 Binary64.pow_rn v w L _ H).
Qed.

Lemma max_moment_correctly_rounded_witness :
  is_finite 1e200 = true /\ is_finite 20 = true /\
  Binary64.max_moment Binary64.pow_rn (variant_name Overhang) 30 1e200 =
  raise OverflowError /\
  Binary64.max_moment Binary64.pow_rn (variant_name Overhang) 30 20 = mret 1200.
Proof.
  assert (H1 : is_finite 1e200 = true) by reflexivity.
  assert (H2 : is_finite 20 = true) by reflexivity.
  split; [exact H1 |]. split; [exact H2 |]. split.
  - exact (max_moment_correctly_rounded Overhang 30 1e200 H1).
  - exact (max_moment_correctly_rounded Overhang 30 20 H2).
Defined.

End Binary64Further.
